(** * A shallow embedding of the toast notification store (use-toast.ts)

    The module keeps three pieces of process-wide mutable state: the
    counter [count] of [genId], the map [toastTimeouts] from toast id to
    the handle of a pending [setTimeout], and the store [memoryState]
    with its [listeners].  Toast objects are JS objects with identity, so
    they live in a heap of locations; every spread [{...t, ...}] allocates
    a fresh object and never writes to [t].  The browser's table of armed
    timers (handle to toast id and delay) is modelled explicitly, so that
    [setTimeout], [clearTimeout] and the firing of a timer are visible. *)

From Stdlib Require Import ZArith DecimalString DecimalN.
From stdpp Require Import base gmap strings list.

(** ** Data model *)

(** [React.ReactNode] and [ToastActionElement]: display content, opaque
    to the store. *)
Definition Node := string.

(** The [onOpenChange] closure built by [toast]: [(open) => { if (!open)
    dismiss() }], where [dismiss] closes over the id of the toast. *)
Inductive OpenChange :=
| DismissWhenClosed (toastId : string).

(** [ToasterToast = ToastProps & { id; title?; description?; action?;
    duration? }]; an optional key is [None] when absent or undefined. *)
Record ToasterToast := mkToast {
  id : string;
  title : option Node;
  description : option Node;
  action : option Node;
  duration : option Z;
  open : option bool;
  variant : option string;
  onOpenChange : option OpenChange
}.

(** [Partial<ToasterToast> & { id: string }]: for each optional key,
    [None] when the key is not an own property of the object and
    [Some v] when it is (with value [v], possibly undefined). *)
Record PartialToast := mkPartial {
  p_id : string;
  p_title : option (option Node);
  p_description : option (option Node);
  p_action : option (option Node);
  p_duration : option (option Z);
  p_open : option (option bool);
  p_variant : option (option string);
  p_onOpenChange : option (option OpenChange)
}.

(** [Toast = Omit<ToasterToast, "id">], the argument of [toast]. *)
Record ToastInput := mkInput {
  in_title : option Node;
  in_description : option Node;
  in_action : option Node;
  in_duration : option Z;
  in_open : option bool;
  in_variant : option string;
  in_onOpenChange : option OpenChange
}.

(** A reference to a toast object. *)
Abbreviation loc := nat.

(** [interface State { toasts: ToasterToast[] }] *)
Record State := mkState { toasts : list loc }.

Inductive Action :=
| ADD_TOAST (toast : loc)
| UPDATE_TOAST (toast : PartialToast)
| DISMISS_TOAST (toastId : option string)
| REMOVE_TOAST (toastId : option string)
| CLEAR_ALL_TOASTS.

Definition TOAST_LIMIT : nat := 5.
Definition TOAST_REMOVE_DELAY : Z := 5000.
Definition MAX_SAFE_INTEGER : Z := 2 ^ 53 - 1.

(** The whole mutable world of the module.  [timers] is the host's table
    of armed timers: handle to the toast id its callback removes and the
    delay it was armed with.  Timer handles are positive, as the
    integers returned by [setTimeout] in a browser are. *)
Record World := mkWorld {
  heap : gmap nat ToasterToast;
  next_loc : nat;
  timers : gmap positive (string * Z);
  next_handle : positive;
  toastTimeouts : gmap string positive;
  count : Z;
  memoryState : State;
  listeners : list nat;
  rendered : list (nat * State)
}.

Definition set_heap (h : gmap nat ToasterToast) (n : nat) (w : World) : World :=
  mkWorld h n (timers w) (next_handle w) (toastTimeouts w) (count w)
    (memoryState w) (listeners w) (rendered w).
Definition set_timers (tm : gmap positive (string * Z)) (nh : positive)
    (w : World) : World :=
  mkWorld (heap w) (next_loc w) tm nh (toastTimeouts w) (count w)
    (memoryState w) (listeners w) (rendered w).
Definition set_toastTimeouts (m : gmap string positive) (w : World) : World :=
  mkWorld (heap w) (next_loc w) (timers w) (next_handle w) m (count w)
    (memoryState w) (listeners w) (rendered w).
Definition set_count (c : Z) (w : World) : World :=
  mkWorld (heap w) (next_loc w) (timers w) (next_handle w) (toastTimeouts w) c
    (memoryState w) (listeners w) (rendered w).
Definition set_store (s : State) (ls : list nat) (r : list (nat * State))
    (w : World) : World :=
  mkWorld (heap w) (next_loc w) (timers w) (next_handle w) (toastTimeouts w)
    (count w) s ls r.

(** ** The state monad of the module *)

Definition M (A : Type) : Type := World -> A * World.

Global Instance M_ret : MRet M := fun A x w => (x, w).
Global Instance M_bind : MBind M :=
  fun A B f m w => let '(x, w') := m w in f x w'.

Definition gets {A} (f : World -> A) : M A := fun w => (f w, w).
Definition modify (f : World -> World) : M unit := fun w => (tt, f w).

(** [Array.prototype.map] with an effectful callback, left to right. *)
Fixpoint map_M {A B} (f : A -> M B) (l : list A) : M (list B) :=
  match l with
  | [] => mret []
  | x :: l' => y ← f x; ys ← map_M f l'; mret (y :: ys)
  end.

(** [Array.prototype.forEach], left to right. *)
Fixpoint forEach {A} (f : A -> M unit) (l : list A) : M unit :=
  match l with
  | [] => mret tt
  | x :: l' => f x;; forEach f l'
  end.

(** ** Objects *)

(** A toast that no object has: every location held by a state is
    allocated (see [wf_world]), so [load] never falls back to it. *)
Definition no_toast : ToasterToast :=
  mkToast "" None None None None None None None.

Definition load (w : World) (l : loc) : ToasterToast :=
  default no_toast (heap w !! l).

Definition deref (l : loc) : M ToasterToast := gets (fun w => load w l).

Definition alloc (t : ToasterToast) : M loc :=
  fun w => (next_loc w, set_heap (<[next_loc w := t]> (heap w)) (S (next_loc w)) w).

(** The value of a key in [{...t, ...p}]. *)
Definition spread_key {A} (old : A) (k : option A) : A :=
  match k with Some v => v | None => old end.

(** [{ ...t, ...action.toast }] *)
Definition spread (t : ToasterToast) (p : PartialToast) : ToasterToast :=
  mkToast (p_id p)
    (spread_key (title t) (p_title p))
    (spread_key (description t) (p_description p))
    (spread_key (action t) (p_action p))
    (spread_key (duration t) (p_duration p))
    (spread_key (open t) (p_open p))
    (spread_key (variant t) (p_variant p))
    (spread_key (onOpenChange t) (p_onOpenChange p)).

(** [{ ...t, open: false }] *)
Definition close (t : ToasterToast) : ToasterToast :=
  mkToast (id t) (title t) (description t) (action t) (duration t)
    (Some false) (variant t) (onOpenChange t).

(** ** Timers *)

Definition setTimeout (toastId : string) (delay : Z) : M positive :=
  fun w => (next_handle w,
            set_timers (<[next_handle w := (toastId, delay)]> (timers w))
              (Pos.succ (next_handle w)) w).

Definition clearTimeout (h : positive) : M unit :=
  modify (fun w => set_timers (delete h (timers w)) (next_handle w) w).

Definition map_set (k : string) (h : positive) : M unit :=
  modify (fun w => set_toastTimeouts (<[k := h]> (toastTimeouts w)) w).
Definition map_delete (k : string) : M unit :=
  modify (fun w => set_toastTimeouts (delete k (toastTimeouts w)) w).

(** [const addToRemoveQueue = (toastId, duration?) => ...]; the
    callback given to [setTimeout] is the one of [fire] below. *)
Definition addToRemoveQueue (toastId : string) (duration : option Z) : M unit :=
  old ← gets (fun w => toastTimeouts w !! toastId);
  match old with
  | Some h => clearTimeout h
  | None => mret tt
  end;;
  let delay := default TOAST_REMOVE_DELAY duration in
  timeout ← setTimeout toastId delay;
  map_set toastId timeout.

(** [const removeFromRemoveQueue = (toastId) => ...]; a handle is
    positive, hence truthy. *)
Definition removeFromRemoveQueue (toastId : string) : M unit :=
  timeout ← gets (fun w => toastTimeouts w !! toastId);
  match timeout with
  | Some h => clearTimeout h;; map_delete toastId
  | None => mret tt
  end.

(** [toastTimeouts.forEach((timeout) => clearTimeout(timeout));
    toastTimeouts.clear()] *)
Definition clearAllTimeouts : M unit :=
  m ← gets toastTimeouts;
  forEach (fun kv => clearTimeout kv.2) (map_to_list m);;
  modify (set_toastTimeouts ∅).

(** ** The reducer *)

(** JS truthiness of an optional string: [undefined] and [""] are falsy. *)
Definition truthy (s : option string) : bool :=
  match s with
  | Some x => negb (String.eqb x "")
  | None => false
  end.

Definition str_eq (a b : string) : bool := String.eqb a b.

Definition reducer (state : State) (a : Action) : M State :=
  match a with
  | ADD_TOAST toast =>
      mret (mkState (take TOAST_LIMIT (toast :: toasts state)))
  | UPDATE_TOAST p =>
      ts ← map_M (fun l =>
                    t ← deref l;
                    if str_eq (id t) (p_id p) then alloc (spread t p)
                    else mret l) (toasts state);
      mret (mkState ts)
  | DISMISS_TOAST toastId =>
      (if truthy toastId then
         match toastId with
         | Some s => addToRemoveQueue s None
         | None => mret tt
         end
       else
         forEach (fun l => t ← deref l; addToRemoveQueue (id t) (duration t))
           (toasts state));;
      ts ← map_M (fun l =>
                    t ← deref l;
                    if bool_decide (Some (id t) = toastId) || bool_decide (toastId = None)
                    then alloc (close t) else mret l) (toasts state);
      mret (mkState ts)
  | REMOVE_TOAST None => mret (mkState [])
  | REMOVE_TOAST (Some i) =>
      w ← gets (fun w => w);
      mret (mkState (List.filter (fun l => negb (str_eq (id (load w l)) i)) (toasts state)))
  | CLEAR_ALL_TOASTS =>
      clearAllTimeouts;;
      mret (mkState [])
  end.

(** ** Dispatch and the store *)

(** [function dispatch(action)]: run the reducer on [memoryState], store
    the result, then call every listener with it, in order. *)
Definition dispatch (a : Action) : M unit :=
  s ← gets memoryState;
  s' ← reducer s a;
  modify (fun w => set_store s' (listeners w)
                     (rendered w ++ map (fun k => (k, s')) (listeners w)) w).

(** [Number.prototype.toString] on a safe integer: its decimal digits. *)
Definition number_toString (z : Z) : string :=
  match z with
  | Zneg p => String.append "-" (NilZero.string_of_uint (Pos.to_uint p))
  | _ => NilZero.string_of_uint (N.to_uint (Z.to_N z))
  end.

(** [function genId()] *)
Definition genId : M string :=
  fun w =>
    let c := ((count w + 1) mod MAX_SAFE_INTEGER)%Z in
    (number_toString c, set_count c w).

(** The ids returned by [n] successive calls of [genId]. *)
Fixpoint genIds (n : nat) : M (list string) :=
  match n with
  | O => mret []
  | S n' => i ← genId; is ← genIds n'; mret (i :: is)
  end.

(** [function toast({ duration, ...props })]; the returned handle
    [{ id, dismiss, update }] is represented by its [id]: its two
    closures are the events [HandleDismiss id] and [HandleUpdate id]. *)
Definition toast (props : ToastInput) : M string :=
  i ← genId;
  l ← alloc (mkToast i (in_title props) (in_description props)
               (in_action props) (in_duration props) (Some true)
               (in_variant props) (Some (DismissWhenClosed i)));
  dispatch (ADD_TOAST l);;
  (if bool_decide (in_duration props = Some 0%Z) then mret tt
   else addToRemoveQueue i (in_duration props));;
  mret i.

(** The [dismiss] closure of the handle returned by [toast]; also what
    [onOpenChange(false)] runs. *)
Definition handle_dismiss (i : string) : M unit :=
  removeFromRemoveQueue i;;
  dispatch (DISMISS_TOAST (Some i)).

(** The [update] closure of the handle: [{ ...props, id }]. *)
Definition handle_update (i : string) (p : PartialToast) : M unit :=
  dispatch (UPDATE_TOAST (mkPartial i (p_title p) (p_description p)
                            (p_action p) (p_duration p) (p_open p)
                            (p_variant p) (p_onOpenChange p))).

(** [dismiss] of [useToast]. *)
Definition hook_dismiss (toastId : option string) : M unit :=
  (if truthy toastId then
     match toastId with Some s => removeFromRemoveQueue s | None => mret tt end
   else mret tt);;
  dispatch (DISMISS_TOAST toastId).

(** [clearAll] of [useToast]. *)
Definition hook_clearAll : M unit := dispatch CLEAR_ALL_TOASTS.

(** The callback of the timer [h], when the host fires it:
    [toastTimeouts.delete(toastId); dispatch(REMOVE_TOAST toastId)]. *)
Definition fire (h : positive) : M unit :=
  armed ← gets (fun w => timers w !! h);
  match armed with
  | Some (toastId, _) =>
      modify (fun w => set_timers (delete h (timers w)) (next_handle w) w);;
      map_delete toastId;;
      dispatch (REMOVE_TOAST (Some toastId))
  | None => mret tt
  end.

(** [export const cleanup] *)
Definition cleanup : M unit :=
  clearAllTimeouts;;
  modify (fun w => set_store (mkState []) [] (rendered w) w).

(** Everything that can happen to the module, from outside. *)
Inductive Event :=
| Dispatch (a : Action)
| CreateToast (props : ToastInput)
| HandleDismiss (i : string)
| HandleUpdate (i : string) (p : PartialToast)
| HookDismiss (toastId : option string)
| HookClearAll
| Fire (h : positive)
| Subscribe (k : nat)
| Cleanup.

Definition step (e : Event) : M unit :=
  match e with
  | Dispatch a => dispatch a
  | CreateToast props => _ ← toast props; mret tt
  | HandleDismiss i => handle_dismiss i
  | HandleUpdate i p => handle_update i p
  | HookDismiss t => hook_dismiss t
  | HookClearAll => hook_clearAll
  | Fire h => fire h
  | Subscribe k =>
      modify (fun w => set_store (memoryState w) (listeners w ++ [k]) (rendered w) w)
  | Cleanup => cleanup
  end.

Fixpoint run (w : World) (es : list Event) : World :=
  match es with
  | [] => w
  | e :: es' => run (step e w).2 es'
  end.

(** The module's state when it is loaded. *)
Definition init : World :=
  mkWorld ∅ 0 ∅ 1%positive ∅ 0 (mkState []) [] [].

(** The toasts of a state, as values. *)
Definition view (w : World) (s : State) : list ToasterToast :=
  map (load w) (toasts s).

Definition input (t : option Node) (d : option Z) : ToastInput :=
  mkInput t None None d None None None.

(** ** The exported wrappers and the hook *)

Definition with_variant (v : string) (props : ToastInput) : ToastInput :=
  mkInput (in_title props) (in_description props) (in_action props)
    (in_duration props) (in_open props) (Some v) (in_onOpenChange props).

(** [{ ...props, variant: v, duration: d }] *)
Definition with_variant_duration (v : string) (d : Z) (props : ToastInput)
    : ToastInput :=
  mkInput (in_title props) (in_description props) (in_action props)
    (Some d) (in_open props) (Some v) (in_onOpenChange props).

Definition toastSuccess (props : ToastInput) : M string :=
  toast (with_variant "default" props).

Definition toastError (props : ToastInput) : M string :=
  toast (with_variant_duration "destructive" 0 props).

Definition toastWarning (props : ToastInput) : M string :=
  toast (with_variant_duration "default" 7000 props).

Definition toastInfo (props : ToastInput) : M string :=
  toast (with_variant "default" props).

(** Calling the [onOpenChange] closure stored on a toast:
    [(open) => { if (!open) dismiss() }]. *)
Definition call_onOpenChange (f : OpenChange) (o : bool) : M unit :=
  match f with
  | DismissWhenClosed i => if o then mret tt else handle_dismiss i
  end.

(** [Array.prototype.indexOf] on the listeners, from index [i]. *)
Fixpoint indexOf_from (ls : list nat) (k : nat) (i : Z) : Z :=
  match ls with
  | [] => (-1)%Z
  | x :: ls' => if Nat.eqb x k then i else indexOf_from ls' k (i + 1)
  end.

Definition indexOf (ls : list nat) (k : nat) : Z := indexOf_from ls k 0.

(** [Array.prototype.splice(index, 1)] *)
Definition splice1 {A} (ls : list A) (index : nat) : list A :=
  take index ls ++ drop (S index) ls.

(** The function returned by [useToast]'s effect, run when the component
    using the hook unmounts: [const index = listeners.indexOf(setState);
    if (index > -1) listeners.splice(index, 1)]. *)
Definition unsubscribe (k : nat) : M unit :=
  modify (fun w =>
    let index := indexOf (listeners w) k in
    if (index >? -1)%Z
    then set_store (memoryState w) (splice1 (listeners w) (Z.to_nat index))
           (rendered w) w
    else w).

(** ** Well-formedness of a world *)

(** Every allocated object sits below [next_loc]. *)
Definition wf_heap (w : World) : Prop :=
  map_Forall (fun l _ => l < next_loc w) (heap w).

(** Every location of a state is an allocated object. *)
Definition allocated (w : World) (s : State) : Prop :=
  Forall (fun l => is_Some (heap w !! l)) (toasts s).

(** Every armed timer has a handle below [next_handle], and the registry
    maps an id only to an armed timer whose callback removes that id. *)
Definition timers_wf (w : World) : Prop :=
  map_Forall (fun h _ => (h < next_handle w)%positive) (timers w) /\
  map_Forall (fun k h => match timers w !! h with
                         | Some (k', _) => k' = k
                         | None => False
                         end) (toastTimeouts w).

(** A removal of [i] after [d] ms is pending and registered for [i]. *)
Definition scheduled (w : World) (i : string) (d : Z) : Prop :=
  exists h, toastTimeouts w !! i = Some h /\ timers w !! h = Some (i, d).

Definition heap_ext (w w' : World) : Prop :=
  forall l t, heap w !! l = Some t -> heap w' !! l = Some t.

(** ** Frame relations *)

Definition preserves (R : relation World) {A} (m : M A) : Prop :=
  forall w, R w (m w).2.

(** No listener called, store, subscribers and counter untouched. *)
Definition io_same (w w' : World) : Prop :=
  count w' = count w /\ memoryState w' = memoryState w /\
  listeners w' = listeners w /\ rendered w' = rendered w.

Definition heap_same (w w' : World) : Prop :=
  heap w' = heap w /\ next_loc w' = next_loc w.

Definition timer_same (w w' : World) : Prop :=
  timers w' = timers w /\ next_handle w' = next_handle w /\
  toastTimeouts w' = toastTimeouts w.

(** Objects are only ever added, never written. *)
Definition heap_grows (w w' : World) : Prop :=
  wf_heap w -> wf_heap w' /\ heap_ext w w'.

Definition timers_ok (w w' : World) : Prop := timers_wf w -> timers_wf w'.

Definition len_ok (w w' : World) : Prop :=
  length (toasts (memoryState w)) <= TOAST_LIMIT ->
  length (toasts (memoryState w')) <= TOAST_LIMIT.

Create HintDb frame.

(** ** Lemmas *)

Section Preserves.
Context (R : relation World) `{!PreOrder R}.

Lemma preserves_ret {A} (x : A) : preserves R (mret x).
Proof. intros w. simpl. reflexivity. Qed.

Lemma preserves_gets {A} (f : World -> A) : preserves R (gets f).
Proof. intros w. simpl. reflexivity. Qed.

Lemma preserves_bind {A B} (m : M A) (f : A -> M B) :
  preserves R m -> (forall x, preserves R (f x)) -> preserves R (m ≫= f).
Proof.
  intros Hm Hf w. unfold mbind, M_bind.
  specialize (Hm w). destruct (m w) as [x w1]. simpl in Hm.
  etransitivity; [exact Hm|]. apply Hf.
Qed.

Lemma preserves_map_M {A B} (f : A -> M B) l :
  (forall x, preserves R (f x)) -> preserves R (map_M f l).
Proof.
  intros Hf. induction l as [|x l IH]; simpl.
  - apply preserves_ret.
  - apply preserves_bind; [apply Hf|]. intros y.
    apply preserves_bind; [exact IH|]. intros ys. apply preserves_ret.
Qed.

Lemma preserves_forEach {A} (f : A -> M unit) l :
  (forall x, preserves R (f x)) -> preserves R (forEach f l).
Proof.
  intros Hf. induction l as [|x l IH]; simpl.
  - apply preserves_ret.
  - apply preserves_bind; [apply Hf|]. intros _. exact IH.
Qed.

End Preserves.

Lemma preserves_and (R1 R2 : relation World) {A} (m : M A) :
  preserves R1 m -> preserves R2 m -> preserves (fun w w' => R1 w w' /\ R2 w w') m.
Proof. intros H1 H2 w. split; [apply H1|apply H2]. Qed.

Global Instance io_same_pre : PreOrder io_same.
Proof.
  split.
  - intros w. repeat split.
  - intros w1 w2 w3 (?&?&?&?) (?&?&?&?). repeat split; congruence.
Qed.

Global Instance heap_same_pre : PreOrder heap_same.
Proof.
  split.
  - intros w. split; reflexivity.
  - intros w1 w2 w3 [? ?] [? ?]. split; congruence.
Qed.

Global Instance timer_same_pre : PreOrder timer_same.
Proof.
  split.
  - intros w. repeat split.
  - intros w1 w2 w3 (?&?&?) (?&?&?). repeat split; congruence.
Qed.

Global Instance heap_grows_pre : PreOrder heap_grows.
Proof.
  split.
  - intros w Hw. split; [exact Hw|]. intros l t H. exact H.
  - intros w1 w2 w3 H12 H23 Hw1.
    destruct (H12 Hw1) as [Hw2 E12]. destruct (H23 Hw2) as [Hw3 E23].
    split; [exact Hw3|]. intros l t H. apply E23, E12, H.
Qed.

Global Instance timers_ok_pre : PreOrder timers_ok.
Proof. split; unfold timers_ok; auto. Qed.

Global Instance len_ok_pre : PreOrder len_ok.
Proof. split; unfold len_ok; auto. Qed.

Lemma preserves_mono (R1 R2 : relation World) {A} (m : M A) :
  (forall w w', R1 w w' -> R2 w w') -> preserves R1 m -> preserves R2 m.
Proof. intros H H1 w. apply H, H1. Qed.

Lemma heap_same_grows w w' : heap_same w w' -> heap_grows w w'.
Proof.
  intros [Eh En] Hw. unfold wf_heap, heap_ext in *. rewrite Eh, En.
  split; [exact Hw|]. intros l t H. exact H.
Qed.

Lemma io_same_len w w' : io_same w w' -> len_ok w w'.
Proof. intros (_&E&_&_). unfold len_ok. rewrite E. auto. Qed.

Lemma timer_same_ok w w' : timer_same w w' -> timers_ok w w'.
Proof.
  intros (E1&E2&E3). unfold timers_ok, timers_wf. rewrite E1, E2, E3. auto.
Qed.

Ltac prim := intros ?w; simpl; split_and!; reflexivity.

Lemma alloc_io t : preserves io_same (alloc t).
Proof. prim. Qed.
Lemma alloc_timer t : preserves timer_same (alloc t).
Proof. prim. Qed.
Lemma alloc_grows t : preserves heap_grows (alloc t).
Proof.
  intros w Hw. simpl. unfold wf_heap, heap_ext in *; simpl.
  assert (Hfree : heap w !! next_loc w = None).
  { destruct (heap w !! next_loc w) as [t'|] eqn:E; [|reflexivity].
    apply Hw in E. lia. }
  split.
  - apply map_Forall_insert_2; [lia|].
    eapply map_Forall_impl; [exact Hw|]. simpl. intros. lia.
  - intros l t' H. rewrite lookup_insert_ne; [exact H|].
    intros E. subst l. congruence.
Qed.

Lemma setTimeout_io i d : preserves io_same (setTimeout i d).
Proof. prim. Qed.
Lemma setTimeout_heap i d : preserves heap_same (setTimeout i d).
Proof. prim. Qed.
Lemma clearTimeout_io h : preserves io_same (clearTimeout h).
Proof. prim. Qed.
Lemma clearTimeout_heap h : preserves heap_same (clearTimeout h).
Proof. prim. Qed.
Lemma map_set_io k h : preserves io_same (map_set k h).
Proof. prim. Qed.
Lemma map_set_heap k h : preserves heap_same (map_set k h).
Proof. prim. Qed.
Lemma map_delete_io k : preserves io_same (map_delete k).
Proof. prim. Qed.
Lemma map_delete_heap k : preserves heap_same (map_delete k).
Proof. prim. Qed.
Lemma set_toastTimeouts_io m : preserves io_same (modify (set_toastTimeouts m)).
Proof. prim. Qed.
Lemma set_toastTimeouts_heap m : preserves heap_same (modify (set_toastTimeouts m)).
Proof. prim. Qed.

#[export] Hint Resolve alloc_io alloc_timer alloc_grows setTimeout_io
  setTimeout_heap clearTimeout_io clearTimeout_heap map_set_io map_set_heap
  map_delete_io map_delete_heap set_toastTimeouts_io set_toastTimeouts_heap
  preserves_ret preserves_gets : frame.

Ltac frame :=
  repeat first
    [ solve [eauto with frame typeclass_instances]
    | solve [eapply preserves_mono; [apply heap_same_grows|eauto with frame]]
    | solve [eapply preserves_mono; [apply io_same_len|eauto with frame]]
    | solve [eapply preserves_mono; [apply timer_same_ok|eauto with frame]]
    | apply preserves_ret
    | progress unfold deref
    | apply preserves_bind; [typeclasses eauto| |intros ?]
    | apply preserves_forEach; [typeclasses eauto|intros ?]
    | apply preserves_map_M; [typeclasses eauto|intros ?]
    | apply preserves_gets
    | progress case_match ].

Lemma addToRemoveQueue_io i d : preserves io_same (addToRemoveQueue i d).
Proof. unfold addToRemoveQueue. frame. Qed.
Lemma addToRemoveQueue_heap i d : preserves heap_same (addToRemoveQueue i d).
Proof. unfold addToRemoveQueue. frame. Qed.
Lemma removeFromRemoveQueue_io i : preserves io_same (removeFromRemoveQueue i).
Proof. unfold removeFromRemoveQueue. frame. Qed.
Lemma removeFromRemoveQueue_heap i : preserves heap_same (removeFromRemoveQueue i).
Proof. unfold removeFromRemoveQueue. frame. Qed.
Lemma clearAllTimeouts_io : preserves io_same clearAllTimeouts.
Proof. unfold clearAllTimeouts. frame. Qed.
Lemma clearAllTimeouts_heap : preserves heap_same clearAllTimeouts.
Proof. unfold clearAllTimeouts. frame. Qed.

#[export] Hint Resolve addToRemoveQueue_io addToRemoveQueue_heap
  removeFromRemoveQueue_io removeFromRemoveQueue_heap clearAllTimeouts_io
  clearAllTimeouts_heap : frame.

Lemma reducer_io s a : preserves io_same (reducer s a).
Proof. unfold reducer. frame. Qed.

Lemma reducer_grows s a : preserves heap_grows (reducer s a).
Proof. unfold reducer. frame. Qed.

Lemma reducer_timer_same s a :
  match a with DISMISS_TOAST _ | CLEAR_ALL_TOASTS => False | _ => True end ->
  preserves timer_same (reducer s a).
Proof. destruct a; intros []; unfold reducer; frame. Qed.

Ltac destr_pairs :=
  repeat match goal with
         | |- context [match ?p with (_, _) => _ end] =>
             let x := fresh "x" in let w := fresh "w" in
             let E := fresh "E" in destruct p as [x w] eqn:E
         end.

Lemma bind_snd {A B} (m : M A) (f : A -> M B) w :
  ((m ≫= f) w).2 = (f (m w).1 (m w).2).2.
Proof. unfold mbind, M_bind. destruct (m w). reflexivity. Qed.

Lemma bind_fst {A B} (m : M A) (f : A -> M B) w :
  ((m ≫= f) w).1 = (f (m w).1 (m w).2).1.
Proof. unfold mbind, M_bind. destruct (m w). reflexivity. Qed.

Lemma addToRemoveQueue_scheduled i d w :
  scheduled (addToRemoveQueue i d w).2 i (default TOAST_REMOVE_DELAY d).
Proof.
  unfold addToRemoveQueue, scheduled, mbind, M_bind, gets.
  destruct (toastTimeouts w !! i); simpl;
    eexists; (split; [apply lookup_insert_eq|apply lookup_insert_eq]).
Qed.

Lemma scheduled_timer_same w w' i d :
  timer_same w w' -> scheduled w i d -> scheduled w' i d.
Proof. intros (E1&_&E3) (h&H1&H2). exists h. rewrite E1, E3. auto. Qed.

Lemma truthy_some i : i <> "" -> truthy (Some i) = true.
Proof.
  intros H. simpl. destruct (String.eqb_spec i "") as [E|E]; [contradiction|reflexivity].
Qed.

(** The DISMISS case of the reducer, split at its side effect. *)
Lemma reducer_dismiss_snd s tid w :
  (reducer s (DISMISS_TOAST tid) w).2 =
  (map_M (fun l => t ← deref l;
                   if bool_decide (Some (id t) = tid) || bool_decide (tid = None)
                   then alloc (close t) else mret l) (toasts s)
     ((if truthy tid then
         match tid with Some i => addToRemoveQueue i None | None => mret tt end
       else forEach (fun l => t ← deref l; addToRemoveQueue (id t) (duration t))
              (toasts s)) w).2).2.
Proof. unfold reducer. rewrite !bind_snd. reflexivity. Qed.

Lemma reducer_dismiss_fst s tid w :
  (reducer s (DISMISS_TOAST tid) w).1 =
  mkState (map_M (fun l => t ← deref l;
                   if bool_decide (Some (id t) = tid) || bool_decide (tid = None)
                   then alloc (close t) else mret l) (toasts s)
     ((if truthy tid then
         match tid with Some i => addToRemoveQueue i None | None => mret tt end
       else forEach (fun l => t ← deref l; addToRemoveQueue (id t) (duration t))
              (toasts s)) w).2).1.
Proof. unfold reducer. rewrite !bind_fst. reflexivity. Qed.

Lemma dismiss_map_timer_same tid l :
  preserves timer_same
    (map_M (fun l => t ← deref l;
              if bool_decide (Some (id t) = tid) || bool_decide (tid = None)
              then alloc (close t) else mret l) l).
Proof. frame. Qed.

Lemma clearAllTimeouts_empty w : toastTimeouts (clearAllTimeouts w).2 = ∅.
Proof. unfold clearAllTimeouts, mbind, M_bind. simpl. destr_pairs. reflexivity. Qed.

Lemma run_app w es es' : run w (es ++ es') = run (run w es) es'.
Proof. revert w. induction es as [|e es IH]; intros w; simpl; auto. Qed.

Lemma dispatch_snd_memory a w :
  memoryState (dispatch a w).2 = (reducer (memoryState w) a w).1.
Proof. unfold dispatch. rewrite !bind_snd. reflexivity. Qed.

Lemma dispatch_snd_timeouts a w :
  toastTimeouts (dispatch a w).2 = toastTimeouts (reducer (memoryState w) a w).2.
Proof. unfold dispatch. rewrite !bind_snd. reflexivity. Qed.

Lemma dispatch_snd_heap a w :
  heap (dispatch a w).2 = heap (reducer (memoryState w) a w).2.
Proof. unfold dispatch. rewrite !bind_snd. reflexivity. Qed.

Lemma dispatch_snd_timers a w :
  timers (dispatch a w).2 = timers (reducer (memoryState w) a w).2 /\
  next_handle (dispatch a w).2 = next_handle (reducer (memoryState w) a w).2 /\
  next_loc (dispatch a w).2 = next_loc (reducer (memoryState w) a w).2.
Proof. unfold dispatch. rewrite !bind_snd. split_and!; reflexivity. Qed.

Lemma map_M_length {A B} (f : A -> M B) l w : length (map_M f l w).1 = length l.
Proof.
  revert w. induction l as [|x l IH]; intros w; [reflexivity|].
  simpl map_M. rewrite !bind_fst. simpl. f_equal. apply IH.
Qed.

Lemma reducer_len s a w :
  length (toasts s) <= TOAST_LIMIT -> length (toasts (reducer s a w).1) <= TOAST_LIMIT.
Proof.
  intros H. destruct a as [l|p|tid|[i|]|]; unfold reducer.
  - simpl. rewrite length_take. unfold TOAST_LIMIT in *. lia.
  - rewrite bind_fst. simpl. rewrite map_M_length. exact H.
  - rewrite !bind_fst. simpl. rewrite map_M_length. exact H.
  - rewrite bind_fst. simpl. etransitivity; [apply List.filter_length_le|exact H].
  - simpl. lia.
  - rewrite bind_fst. simpl. lia.
Qed.

Lemma dispatch_len a : preserves len_ok (dispatch a).
Proof.
  intros w. unfold len_ok. rewrite dispatch_snd_memory. apply reducer_len.
Qed.

Lemma genId_len : preserves len_ok genId.
Proof. intros w. unfold len_ok. simpl. auto. Qed.

#[export] Hint Resolve dispatch_len genId_len : frame.

Lemma step_len e : preserves len_ok (step e).
Proof.
  destruct e; simpl;
    unfold toast, handle_dismiss, handle_update, hook_dismiss, hook_clearAll,
      fire, cleanup; try solve [frame].
  frame. intros w. unfold len_ok. simpl. lia.
Qed.

Lemma run_len w es :
  length (toasts (memoryState w)) <= TOAST_LIMIT ->
  length (toasts (memoryState (run w es))) <= TOAST_LIMIT.
Proof.
  revert w. induction es as [|e es IH]; intros w H; simpl; [exact H|].
  apply IH. apply (step_len e w H).
Qed.

Lemma take_app_take {A} n (xs ys : list A) :
  take n (xs ++ take n ys) = take n (xs ++ ys).
Proof.
  rewrite !take_app. f_equal. rewrite take_take. f_equal. lia.
Qed.

Definition adds (ls : list loc) : list Event :=
  map (fun l => Dispatch (ADD_TOAST l)) ls.

Lemma run_adds w ls :
  length (toasts (memoryState w)) <= TOAST_LIMIT ->
  toasts (memoryState (run w (adds ls))) =
  take TOAST_LIMIT (rev ls ++ toasts (memoryState w)).
Proof.
  unfold adds. revert w. induction ls as [|l ls IH]; intros w H;
    cbn [map run step].
  - rewrite take_ge; [reflexivity|exact H].
  - rewrite IH.
    + rewrite dispatch_snd_memory. unfold reducer, mret, M_ret. cbn [fst toasts].
      rewrite take_app_take. cbn [rev]. rewrite <- app_assoc. reflexivity.
    + rewrite dispatch_snd_memory. unfold reducer, mret, M_ret. cbn [fst toasts].
      rewrite length_take. unfold TOAST_LIMIT. lia.
Qed.

Lemma init_len : length (toasts (memoryState init)) <= TOAST_LIMIT.
Proof. simpl. unfold TOAST_LIMIT. lia. Qed.

Lemma dismiss_some_scheduled s i w :
  i <> "" ->
  scheduled (reducer s (DISMISS_TOAST (Some i)) w).2 i TOAST_REMOVE_DELAY.
Proof.
  intros E. rewrite reducer_dismiss_snd, truthy_some by exact E.
  eapply scheduled_timer_same; [apply dismiss_map_timer_same|].
  apply (addToRemoveQueue_scheduled i None w).
Qed.

Lemma scheduled_dispatch a w i d :
  scheduled (dispatch a w).2 i d <-> scheduled (reducer (memoryState w) a w).2 i d.
Proof.
  unfold scheduled. destruct (dispatch_snd_timers a w) as (E1&_&_).
  rewrite E1, dispatch_snd_timeouts. reflexivity.
Qed.

Lemma dispatch_timer_same a :
  match a with DISMISS_TOAST _ | CLEAR_ALL_TOASTS => False | _ => True end ->
  preserves timer_same (dispatch a).
Proof.
  intros Ha w. destruct (dispatch_snd_timers a w) as (E1&E2&_).
  destruct (reducer_timer_same (memoryState w) a Ha w) as (F1&F2&F3).
  split_and!; [rewrite E1; exact F1|rewrite E2; exact F2|].
  rewrite dispatch_snd_timeouts. exact F3.
Qed.

Lemma genId_timer_same : preserves timer_same genId.
Proof. prim. Qed.

Lemma genId_heap_same : preserves heap_same genId.
Proof. prim. Qed.

Lemma addToRemoveQueue_wf i d : preserves timers_ok (addToRemoveQueue i d).
Proof.
  intros w [Hh Hr]. unfold addToRemoveQueue, mbind, M_bind, gets.
  destruct (toastTimeouts w !! i) as [h0|] eqn:Ei; simpl;
    unfold timers_wf, map_Forall in *; simpl; split.
  - intros h v Hv. destruct (decide (h = next_handle w)) as [->|Hne]; [lia|].
    rewrite lookup_insert_ne in Hv by congruence.
    apply lookup_delete_Some in Hv as [_ Hv]. apply Hh in Hv. lia.
  - intros k h Hk. destruct (decide (k = i)) as [->|Hki].
    + rewrite lookup_insert_eq in Hk. injection Hk as <-.
      rewrite lookup_insert_eq. reflexivity.
    + rewrite lookup_insert_ne in Hk by congruence.
      pose proof (Hr k h Hk) as Hkh.
      destruct (timers w !! h) as [[k' d']|] eqn:Eh; [|contradiction]. subst k'.
      assert (h <> next_handle w) by (apply Hh in Eh; lia).
      assert (h <> h0).
      { intros ->. pose proof (Hr i h0 Ei) as Hi. rewrite Eh in Hi. congruence. }
      rewrite lookup_insert_ne by congruence. rewrite lookup_delete_ne by congruence.
      rewrite Eh. reflexivity.
  - intros h v Hv. destruct (decide (h = next_handle w)) as [->|Hne]; [lia|].
    rewrite lookup_insert_ne in Hv by congruence. apply Hh in Hv. lia.
  - intros k h Hk. destruct (decide (k = i)) as [->|Hki].
    + rewrite lookup_insert_eq in Hk. injection Hk as <-.
      rewrite lookup_insert_eq. reflexivity.
    + rewrite lookup_insert_ne in Hk by congruence.
      pose proof (Hr k h Hk) as Hkh.
      destruct (timers w !! h) as [[k' d']|] eqn:Eh; [|contradiction]. subst k'.
      assert (h <> next_handle w) by (apply Hh in Eh; lia).
      rewrite lookup_insert_ne by congruence. rewrite Eh. reflexivity.
Qed.

Lemma addToRemoveQueue_keep i d j d' w :
  timers_wf w -> j <> i -> scheduled w j d' ->
  scheduled (addToRemoveQueue i d w).2 j d'.
Proof.
  intros [Hh Hr] Hji (h&Hj&Hth). unfold addToRemoveQueue, mbind, M_bind, gets.
  unfold timers_wf, map_Forall in *.
  assert (Hlt : (h < next_handle w)%positive) by (apply (Hh h (j, d') Hth)).
  destruct (toastTimeouts w !! i) as [h0|] eqn:Ei; simpl; exists h; simpl;
    (split; [rewrite lookup_insert_ne by congruence; exact Hj|]).
  - assert (h <> h0).
    { intros ->. pose proof (Hr i h0 Ei) as Hi. rewrite Hth in Hi. congruence. }
    rewrite lookup_insert_ne by (intros E; subst; lia).
    rewrite lookup_delete_ne by congruence. exact Hth.
  - rewrite lookup_insert_ne by (intros E; subst; lia). exact Hth.
Qed.

#[export] Hint Resolve addToRemoveQueue_wf genId_timer_same genId_heap_same : frame.

Lemma load_heap w w' l : heap w' = heap w -> load w' l = load w l.
Proof. intros E. unfold load. rewrite E. reflexivity. Qed.

Lemma forEach_app_snd {A} (f : A -> M unit) l1 l2 w :
  (forEach f (l1 ++ l2) w).2 = (forEach f l2 (forEach f l1 w).2).2.
Proof.
  revert w. induction l1 as [|x l1 IH]; intros w; [reflexivity|].
  simpl app. cbn [forEach]. rewrite !bind_snd. apply IH.
Qed.

Lemma dismiss_all_keep (L : list loc) w j d :
  timers_wf w -> Forall (fun l => id (load w l) <> j) L -> scheduled w j d ->
  scheduled (forEach (fun l => t ← deref l; addToRemoveQueue (id t) (duration t))
               L w).2 j d.
Proof.
  revert w. induction L as [|x L IH]; intros w Hwf HL Hs; [exact Hs|].
  inversion HL as [|? ? Hx HL']; subst.
  cbn [forEach]. rewrite bind_snd.
  change ((deref x ≫= (fun t => addToRemoveQueue (id t) (duration t))) w).2
    with (addToRemoveQueue (id (load w x)) (duration (load w x)) w).2.
  set (w1 := (addToRemoveQueue (id (load w x)) (duration (load w x)) w).2).
  assert (Eh : heap w1 = heap w) by apply addToRemoveQueue_heap.
  apply IH.
  - apply addToRemoveQueue_wf, Hwf.
  - eapply Forall_impl; [exact HL'|]. intros l Hl. rewrite (load_heap w w1 l Eh). exact Hl.
  - apply addToRemoveQueue_keep; [exact Hwf|congruence|exact Hs].
Qed.

Lemma dismiss_all_last (L1 L2 : list loc) (x : loc) w :
  timers_wf w -> Forall (fun l => id (load w l) <> id (load w x)) L2 ->
  scheduled (forEach (fun l => t ← deref l; addToRemoveQueue (id t) (duration t))
               (L1 ++ x :: L2) w).2
    (id (load w x)) (default TOAST_REMOVE_DELAY (duration (load w x))).
Proof.
  intros Hwf HL2. rewrite forEach_app_snd.
  set (f := fun l => t ← deref l; addToRemoveQueue (id t) (duration t)).
  set (w1 := (forEach f L1 w).2).
  assert (Eh1 : heap w1 = heap w).
  { assert (H : preserves heap_same (forEach f L1)) by (unfold f; frame).
    apply H. }
  assert (Hwf1 : timers_wf w1).
  { assert (H : preserves timers_ok (forEach f L1)) by (unfold f; frame).
    apply H, Hwf. }
  cbn [forEach]. rewrite bind_snd.
  change ((f x) w1).2
    with (addToRemoveQueue (id (load w1 x)) (duration (load w1 x)) w1).2.
  rewrite (load_heap w w1 x Eh1).
  set (w2 := (addToRemoveQueue (id (load w x)) (duration (load w x)) w1).2).
  assert (Eh2 : heap w2 = heap w).
  { rewrite <- Eh1. apply addToRemoveQueue_heap. }
  apply dismiss_all_keep.
  - apply addToRemoveQueue_wf, Hwf1.
  - eapply Forall_impl; [exact HL2|]. intros l Hl. rewrite (load_heap w w2 l Eh2). exact Hl.
  - apply addToRemoveQueue_scheduled.
Qed.

Lemma global_dismiss_scheduled (L1 L2 : list loc) (x : loc) w :
  timers_wf w -> toasts (memoryState w) = L1 ++ x :: L2 ->
  Forall (fun l => id (load w l) <> id (load w x)) L2 ->
  scheduled (dispatch (DISMISS_TOAST None) w).2
    (id (load w x)) (default TOAST_REMOVE_DELAY (duration (load w x))).
Proof.
  intros Hwf Ets HL2. apply scheduled_dispatch.
  rewrite reducer_dismiss_snd. simpl truthy. cbv iota.
  eapply scheduled_timer_same; [apply dismiss_map_timer_same|].
  rewrite Ets. apply dismiss_all_last; assumption.
Qed.

Lemma map_M_id {A} (f : A -> M A) (L : list A) w :
  Forall (fun x => f x w = (x, w)) L -> map_M f L w = (L, w).
Proof.
  induction 1 as [|x L Hx _ IH]; [reflexivity|].
  cbn [map_M]. unfold mbind, M_bind. rewrite Hx, IH. reflexivity.
Qed.

Lemma map_M_copy_none (c : ToasterToast -> bool) (g : ToasterToast -> ToasterToast)
    (L : list loc) w :
  Forall (fun l => c (load w l) = false) L ->
  map_M (fun l => t ← deref l; if c t then alloc (g t) else mret l) L w = (L, w).
Proof.
  intros HL. apply map_M_id. eapply Forall_impl; [exact HL|].
  intros l Hl. cbv [deref gets mbind M_bind]. rewrite Hl. reflexivity.
Qed.

Lemma dismiss_branch_heap s tid :
  preserves heap_same
    (if truthy tid then
       match tid with Some i => addToRemoveQueue i None | None => mret tt end
     else forEach (fun l => t ← deref l; addToRemoveQueue (id t) (duration t))
            (toasts s)).
Proof. frame. Qed.

Lemma dismiss_absent_fst s i w :
  Forall (fun l => id (load w l) <> i) (toasts s) ->
  toasts (reducer s (DISMISS_TOAST (Some i)) w).1 = toasts s.
Proof.
  intros Habs. rewrite reducer_dismiss_fst. cbn [toasts].
  match goal with |- (map_M _ _ ?w1).1 = _ =>
    assert (Eh : heap w1 = heap w) by apply dismiss_branch_heap;
    rewrite map_M_copy_none; [reflexivity|];
    eapply Forall_impl; [exact Habs|]; intros l Hl;
    rewrite (load_heap w w1 l Eh) end.
  apply orb_false_intro; apply bool_decide_eq_false_2; congruence.
Qed.

Lemma filter_all_true {A} (f : A -> bool) (l : list A) :
  Forall (fun x => f x = true) l -> List.filter f l = l.
Proof.
  induction 1 as [|x l Hx _ IH]; [reflexivity|]. simpl. rewrite Hx, IH. reflexivity.
Qed.

(** The callback of [state.toasts.map] in UPDATE and DISMISS: a toast
    selected by [c] is replaced by a fresh spread copy [g t]; any other
    is returned as the same object. *)
Definition copy_cb (c : ToasterToast -> bool) (g : ToasterToast -> ToasterToast)
    (l : loc) : M loc :=
  t ← deref l; if c t then alloc (g t) else mret l.

Definition copied (c : ToasterToast -> bool) (g : ToasterToast -> ToasterToast)
    (w w' : World) (l l' : loc) : Prop :=
  if c (load w l) then load w' l' = g (load w l) /\ heap w !! l' = None
  else l' = l /\ load w' l' = load w l.

Lemma map_M_cons_eq {A B} (f : A -> M B) x L w :
  map_M f (x :: L) w =
  let '(y, w1) := f x w in let '(ys, w2) := map_M f L w1 in (y :: ys, w2).
Proof. reflexivity. Qed.

Lemma heap_ext_load w w' l :
  heap_ext w w' -> is_Some (heap w !! l) -> load w' l = load w l.
Proof. intros He [t Ht]. unfold load. rewrite (He l t Ht), Ht. reflexivity. Qed.

Lemma Forall2_impl_l {A B} (P : A -> Prop) (R R' : A -> B -> Prop) l k :
  Forall P l -> Forall2 R l k -> (forall x y, P x -> R x y -> R' x y) -> Forall2 R' l k.
Proof.
  intros HP HR H. induction HR as [|x y l k Hxy _ IH]; constructor.
  - inversion HP; subst. auto.
  - inversion HP; subst. auto.
Qed.

Lemma map_M_copy_spec c g (L : list loc) w :
  wf_heap w -> Forall (fun l => is_Some (heap w !! l)) L ->
  wf_heap (map_M (copy_cb c g) L w).2 /\
  heap_ext w (map_M (copy_cb c g) L w).2 /\
  Forall2 (copied c g w (map_M (copy_cb c g) L w).2) L (map_M (copy_cb c g) L w).1 /\
  Forall (fun l => is_Some (heap (map_M (copy_cb c g) L w).2 !! l))
    (map_M (copy_cb c g) L w).1.
Proof.
  revert w. induction L as [|x L IH]; intros w Hw HL.
  - split_and!; [exact Hw|intros l t H; exact H|constructor|constructor].
  - inversion HL as [|? ? Hx HL']; subst.
    rewrite map_M_cons_eq.
    change (copy_cb c g x w)
      with ((if c (load w x) then alloc (g (load w x)) else mret x) w).
    destruct (c (load w x)) eqn:Ec.
    + cbn [alloc].
      set (w1 := set_heap (<[next_loc w := g (load w x)]> (heap w)) (S (next_loc w)) w).
      assert (Hg : heap_grows w w1) by apply (alloc_grows (g (load w x)) w).
      destruct (Hg Hw) as [Hw1 E1].
      assert (Hfree : heap w !! next_loc w = None).
      { destruct (heap w !! next_loc w) eqn:E; [|reflexivity]. apply Hw in E. lia. }
      assert (HL1 : Forall (fun l => is_Some (heap w1 !! l)) L).
      { eapply Forall_impl; [exact HL'|]. intros l [t Ht]. exists t. apply E1, Ht. }
      destruct (IH w1 Hw1 HL1) as (Hw2 & E2 & HF & HA).
      destruct (map_M (copy_cb c g) L w1) as [ys w2]. cbn [fst snd] in *.
      split_and!.
      * exact Hw2.
      * intros l t Ht. apply E2, E1, Ht.
      * constructor.
        -- unfold copied. rewrite Ec. split; [|exact Hfree].
           unfold load at 1. rewrite (E2 (next_loc w) (g (load w x))); [reflexivity|].
           simpl. apply lookup_insert_eq.
        -- apply (Forall2_impl_l _ _ _ L ys HL' HF). intros l l' Hl Hc.
           unfold copied in *. rewrite (heap_ext_load w w1 l E1 Hl) in Hc.
           destruct (c (load w l)); [|exact Hc].
           destruct Hc as [Hc1 Hc2]. split; [exact Hc1|].
           destruct (heap w !! l') eqn:E; [|reflexivity].
           apply E1 in E. congruence.
      * constructor; [|exact HA].
        exists (g (load w x)). apply E2. simpl. apply lookup_insert_eq.
    + cbn [mret M_ret].
      destruct (IH w Hw HL') as (Hw2 & E2 & HF & HA).
      destruct (map_M (copy_cb c g) L w) as [ys w2]. cbn [fst snd] in *.
      split_and!; [exact Hw2|exact E2| |].
      * constructor; [|exact HF]. unfold copied. rewrite Ec.
        split; [reflexivity|]. apply (heap_ext_load w w2 x E2 Hx).
      * constructor; [|exact HA]. destruct Hx as [t Ht]. exists t. apply E2, Ht.
Qed.

Lemma map_M_copy_cb_none c g (L : list loc) w :
  Forall (fun l => c (load w l) = false) L -> map_M (copy_cb c g) L w = (L, w).
Proof. apply map_M_copy_none. Qed.

Lemma reducer_update_eq s p w :
  reducer s (UPDATE_TOAST p) w =
  (mkState (map_M (copy_cb (fun t => str_eq (id t) (p_id p)) (fun t => spread t p))
              (toasts s) w).1,
   (map_M (copy_cb (fun t => str_eq (id t) (p_id p)) (fun t => spread t p))
      (toasts s) w).2).
Proof.
  apply injective_projections; unfold reducer;
    [rewrite bind_fst|rewrite bind_snd]; reflexivity.
Qed.

(** The DISMISS branch that arms timers, before the [map]. *)
Definition dismiss_timers (s : State) (tid : option string) : M unit :=
  if truthy tid then
    match tid with Some i => addToRemoveQueue i None | None => mret tt end
  else forEach (fun l => t ← deref l; addToRemoveQueue (id t) (duration t))
         (toasts s).

Definition dismiss_sel (tid : option string) (t : ToasterToast) : bool :=
  bool_decide (Some (id t) = tid) || bool_decide (tid = None).

Lemma reducer_dismiss_eq s tid w :
  reducer s (DISMISS_TOAST tid) w =
  (mkState (map_M (copy_cb (dismiss_sel tid) close) (toasts s)
              (dismiss_timers s tid w).2).1,
   (map_M (copy_cb (dismiss_sel tid) close) (toasts s)
      (dismiss_timers s tid w).2).2).
Proof.
  apply injective_projections;
    [rewrite reducer_dismiss_fst|rewrite reducer_dismiss_snd]; reflexivity.
Qed.

(** One DISMISS, seen through the values of the toasts. *)
Lemma dismiss_view s tid w :
  wf_heap w -> allocated w s ->
  let r := reducer s (DISMISS_TOAST tid) w in
  view r.2 r.1 =
  map (fun t => if dismiss_sel tid t then close t else t) (view w s) /\
  wf_heap r.2 /\ allocated r.2 r.1.
Proof.
  intros Hw Ha. rewrite reducer_dismiss_eq. cbn [fst snd].
  set (w1 := (dismiss_timers s tid w).2).
  assert (Eh : heap w1 = heap w) by apply dismiss_branch_heap.
  assert (Hw1 : wf_heap w1).
  { unfold wf_heap in *. rewrite Eh. destruct (dismiss_branch_heap s tid w) as [_ En].
    unfold w1, dismiss_timers. rewrite En. exact Hw. }
  assert (Ha1 : Forall (fun l => is_Some (heap w1 !! l)) (toasts s)) by (rewrite Eh; exact Ha).
  destruct (map_M_copy_spec (dismiss_sel tid) close (toasts s) w1 Hw1 Ha1)
    as (Hw2 & _ & HF & HA).
  destruct (map_M (copy_cb (dismiss_sel tid) close) (toasts s) w1) as [ys w2].
  cbn [fst snd] in *. unfold view, allocated. cbn [toasts]. split_and!; [|exact Hw2|exact HA].
  clear HA Ha1. induction HF as [|l l' L L' Hc _ IH]; [reflexivity|].
  cbn [map]. f_equal; [|exact IH].
  unfold copied in Hc. rewrite (load_heap w w1 l Eh) in Hc.
  destruct (dismiss_sel tid (load w l)); destruct Hc as [Hc1 Hc2];
    [exact Hc1|exact Hc2].
Qed.

Lemma view_heap w w' s : heap w' = heap w -> view w' s = view w s.
Proof. intros E. unfold view. apply map_ext. intros l. apply load_heap, E. Qed.

Lemma dispatch_view a w :
  view (dispatch a w).2 (memoryState (dispatch a w).2) =
  view (reducer (memoryState w) a w).2 (reducer (memoryState w) a w).1.
Proof. rewrite dispatch_snd_memory. apply view_heap, dispatch_snd_heap. Qed.

Lemma dispatch_wf a w :
  wf_heap (reducer (memoryState w) a w).2 ->
  allocated (reducer (memoryState w) a w).2 (reducer (memoryState w) a w).1 ->
  wf_heap (dispatch a w).2 /\ allocated (dispatch a w).2 (memoryState (dispatch a w).2).
Proof.
  unfold wf_heap, allocated. destruct (dispatch_snd_timers a w) as (_&_&En).
  rewrite dispatch_snd_heap, dispatch_snd_memory, En. auto.
Qed.

Lemma close_sel_idem tid t :
  (if dismiss_sel tid (if dismiss_sel tid t then close t else t)
   then close (if dismiss_sel tid t then close t else t)
   else (if dismiss_sel tid t then close t else t)) =
  (if dismiss_sel tid t then close t else t).
Proof.
  destruct (dismiss_sel tid t) eqn:E; [|rewrite E; reflexivity].
  assert (E' : dismiss_sel tid (close t) = true) by (unfold dismiss_sel in *; exact E).
  rewrite E'. reflexivity.
Qed.

Lemma to_uint_nonnil n : N.to_uint n <> Decimal.Nil.
Proof.
  rewrite <- (DecimalN.Unsigned.of_to n). rewrite DecimalN.Unsigned.to_of.
  unfold Decimal.unorm. destruct (Decimal.nzhead _); discriminate.
Qed.

Lemma number_toString_nonneg z :
  (0 <= z)%Z -> number_toString z = NilZero.string_of_uint (N.to_uint (Z.to_N z)).
Proof. intros H. destruct z; [reflexivity|reflexivity|lia]. Qed.

Lemma number_toString_inj a b :
  (0 <= a)%Z -> (0 <= b)%Z -> number_toString a = number_toString b -> a = b.
Proof.
  intros Ha Hb E. rewrite !number_toString_nonneg in E by assumption.
  apply (f_equal NilZero.uint_of_string) in E.
  rewrite !NilZero.usu in E by apply to_uint_nonnil.
  injection E as E. apply DecimalN.Unsigned.to_uint_inj in E. lia.
Qed.

Lemma genIds_spec n w :
  (0 <= count w < MAX_SAFE_INTEGER)%Z ->
  (genIds n w).1 =
  map (fun k => number_toString ((count w + Z.of_nat k) mod MAX_SAFE_INTEGER)) (seq 1 n).
Proof.
  revert w. induction n as [|n IH]; intros w Hc; [reflexivity|].
  cbn [genIds]. rewrite !bind_fst. cbn [genId fst snd].
  rewrite IH; cbn [count set_count].
  2: { apply Z.mod_pos_bound. unfold MAX_SAFE_INTEGER. lia. }
  cbn [seq map mret M_ret fst]. f_equal.
  rewrite <- (seq_shift n 1), map_map. apply map_ext. intros k.
  rewrite Zplus_mod_idemp_l. f_equal. f_equal. lia.
Qed.

(** A world reached by creating toast "1" with the default duration and
    toast "2" with duration 0. *)
Definition demo_world : World :=
  run init [CreateToast (input (Some "A") None);
            CreateToast (input (Some "B") (Some 0%Z))].


(** Executable checks of the two well-formedness conditions. *)
Definition wf_heap_b (w : World) : bool :=
  forallb (fun kv => Nat.ltb kv.1 (next_loc w)) (map_to_list (heap w)).

Definition allocated_b (w : World) (s : State) : bool :=
  forallb (fun l => match heap w !! l with Some _ => true | None => false end)
    (toasts s).

Lemma wf_heap_b_sound w : wf_heap_b w = true -> wf_heap w.
Proof.
  intros H. unfold wf_heap. apply map_Forall_to_list. unfold wf_heap_b in H.
  apply Forall_forall. intros [l t] Hin. apply forallb_forall with (x := (l, t)) in H;
    [|apply list_elem_of_In; exact Hin]. apply Nat.ltb_lt in H. exact H.
Qed.

Lemma allocated_b_sound w s : allocated_b w s = true -> allocated w s.
Proof.
  intros H. unfold allocated. apply Forall_forall. intros l Hin.
  apply forallb_forall with (x := l) in H; [|apply list_elem_of_In; exact Hin].
  destruct (heap w !! l); [eexists; reflexivity|discriminate].
Qed.
Ltac forall_neq := vm_compute; repeat constructor; intros ?E; discriminate E.

(** ** Further lemmas *)

(** The armed timers and the registry agree: every armed timer is the
    one registered for the id its callback removes. *)

Definition timers_exact (w : World) : Prop :=
  timers_wf w /\
  map_Forall (fun h v => toastTimeouts w !! v.1 = Some h) (timers w).

Definition exact_ok (w w' : World) : Prop := timers_exact w -> timers_exact w'.

Global Instance exact_ok_pre : PreOrder exact_ok.
Proof. split; unfold exact_ok; auto. Qed.

Lemma timer_same_exact w w' : timer_same w w' -> exact_ok w w'.
Proof.
  intros (E1&E2&E3). unfold exact_ok, timers_exact, timers_wf. rewrite E1, E2, E3. auto.
Qed.

Lemma addToRemoveQueue_exact i d : preserves exact_ok (addToRemoveQueue i d).
Proof.
  intros w [Hwf Hx]. split; [apply addToRemoveQueue_wf, Hwf|].
  destruct Hwf as [Hh Hr].
  unfold addToRemoveQueue, mbind, M_bind, gets.
  destruct (toastTimeouts w !! i) as [h0|] eqn:Ei; simpl;
    unfold map_Forall in *; simpl.
  - intros h [j d'] Hv. simpl.
    destruct (decide (h = next_handle w)) as [->|Hne].
    + rewrite lookup_insert_eq in Hv. injection Hv as <- <-.
      apply lookup_insert_eq.
    + rewrite lookup_insert_ne in Hv by congruence.
      apply lookup_delete_Some in Hv as [Hh0 Hv].
      pose proof (Hx h (j, d') Hv) as Hj. simpl in Hj.
      destruct (decide (j = i)) as [->|Hji]; [congruence|].
      rewrite lookup_insert_ne by congruence. exact Hj.
  - intros h [j d'] Hv. simpl.
    destruct (decide (h = next_handle w)) as [->|Hne].
    + rewrite lookup_insert_eq in Hv. injection Hv as <- <-.
      apply lookup_insert_eq.
    + rewrite lookup_insert_ne in Hv by congruence.
      pose proof (Hx h (j, d') Hv) as Hj. simpl in Hj.
      destruct (decide (j = i)) as [->|Hji]; [congruence|].
      rewrite lookup_insert_ne by congruence. exact Hj.
Qed.

Lemma removeFromRemoveQueue_exact i : preserves exact_ok (removeFromRemoveQueue i).
Proof.
  intros w [[Hh Hr] Hx]. unfold removeFromRemoveQueue, mbind, M_bind, gets.
  destruct (toastTimeouts w !! i) as [h0|] eqn:Ei; simpl;
    [|split; [split|]; assumption].
  unfold timers_exact, timers_wf, map_Forall in *; simpl. split_and!.
  - intros h v Hv. apply lookup_delete_Some in Hv as [_ Hv]. exact (Hh h v Hv).
  - intros k h Hk. apply lookup_delete_Some in Hk as [Hki Hk].
    pose proof (Hr k h Hk) as Hkh.
    destruct (decide (h = h0)) as [->|Hne].
    + pose proof (Hr i h0 Ei) as Hi.
      destruct (timers w !! h0) as [[k' ?]|]; [congruence|contradiction].
    + rewrite lookup_delete_ne by congruence. exact Hkh.
  - intros h [j d'] Hv. apply lookup_delete_Some in Hv as [Hne Hv].
    pose proof (Hx h (j, d') Hv) as Hj. simpl in *.
    destruct (decide (j = i)) as [->|Hji]; [congruence|].
    rewrite lookup_delete_ne by congruence. exact Hj.
Qed.

Lemma forEach_clear_spec (L : list (string * positive)) w :
  let w' := (forEach (fun kv => clearTimeout kv.2) L w).2 in
  (forall h, timers w' !! h =
             if bool_decide (h ∈ L.*2) then None else timers w !! h) /\
  next_handle w' = next_handle w /\ toastTimeouts w' = toastTimeouts w /\
  io_same w w' /\ heap_same w w'.
Proof.
  revert w. induction L as [|[k h0] L IH]; intros w; cbn [forEach].
  - simpl. split_and!; reflexivity.
  - rewrite bind_snd.
    set (w1 := (clearTimeout (k, h0).2 w).2).
    destruct (IH w1) as (Ht & Hn & Hr & Hio & Hhs). simpl. split_and!.
    + intros h. rewrite Ht. cbn [w1 clearTimeout modify snd set_timers timers].
      case_bool_decide as H1; case_bool_decide as H2.
      * reflexivity.
      * exfalso. apply H2. apply elem_of_cons. right. exact H1.
      * apply elem_of_cons in H2 as [->|H2]; [apply lookup_delete_eq|contradiction].
      * rewrite lookup_delete_ne; [reflexivity|].
        intros ->. apply H2, elem_of_cons. left. reflexivity.
    + exact Hn.
    + exact Hr.
    + etransitivity; [|exact Hio]. apply clearTimeout_io.
    + etransitivity; [|exact Hhs]. apply clearTimeout_heap.
Qed.

Lemma clearAllTimeouts_timers_empty w :
  timers_exact w -> timers (clearAllTimeouts w).2 = ∅.
Proof.
  intros [_ Hx]. unfold clearAllTimeouts. rewrite bind_snd. cbn [gets fst snd].
  rewrite bind_snd.
  destruct (forEach_clear_spec (map_to_list (toastTimeouts w)) w) as (Ht&_).
  apply map_eq. intros h. simpl. rewrite Ht, lookup_empty.
  destruct (bool_decide _) eqn:E; [reflexivity|].
  apply bool_decide_eq_false in E.
  destruct (timers w !! h) as [[j d]|] eqn:Eh; [|reflexivity].
  exfalso. apply E. pose proof (Hx h (j, d) Eh) as Hj. simpl in Hj.
  apply list_elem_of_fmap. exists (j, h). split; [reflexivity|].
  apply elem_of_map_to_list, Hj.
Qed.

Lemma clearAllTimeouts_exact : preserves exact_ok clearAllTimeouts.
Proof.
  intros w Hw. pose proof (clearAllTimeouts_timers_empty w Hw) as Ht.
  pose proof (clearAllTimeouts_empty w) as Hr.
  unfold timers_exact, timers_wf. rewrite Ht, Hr. split_and!; apply map_Forall_empty.
Qed.

#[export] Hint Resolve addToRemoveQueue_exact removeFromRemoveQueue_exact
  clearAllTimeouts_exact : frame.

Ltac frame_exact :=
  repeat first
    [ solve [eauto with frame typeclass_instances]
    | solve [eapply preserves_mono; [apply timer_same_exact|eauto with frame]]
    | apply preserves_ret
    | progress unfold deref
    | apply preserves_bind; [typeclasses eauto| |intros ?]
    | apply preserves_forEach; [typeclasses eauto|intros ?]
    | apply preserves_map_M; [typeclasses eauto|intros ?]
    | apply preserves_gets
    | progress case_match ].

Lemma reducer_exact s a : preserves exact_ok (reducer s a).
Proof. unfold reducer. frame_exact. Qed.

Lemma dispatch_exact a : preserves exact_ok (dispatch a).
Proof.
  intros w Hw. pose proof (reducer_exact (memoryState w) a w Hw) as H.
  destruct (dispatch_snd_timers a w) as (E1&E2&_).
  unfold timers_exact, timers_wf in *. rewrite E1, E2, dispatch_snd_timeouts. exact H.
Qed.

#[export] Hint Resolve dispatch_exact : frame.

Lemma fire_exact h : preserves exact_ok (fire h).
Proof.
  intros w [[Hh Hr] Hx]. unfold fire, mbind, M_bind, gets.
  destruct (timers w !! h) as [[i d]|] eqn:Eh; [|split; [split|]; assumption].
  cbn [modify snd fst].
  set (w1 := set_toastTimeouts (delete i (toastTimeouts
               (set_timers (delete h (timers w)) (next_handle w) w)))
               (set_timers (delete h (timers w)) (next_handle w) w)).
  apply (dispatch_exact (REMOVE_TOAST (Some i)) w1).
  pose proof (Hx h (i, d) Eh) as Hi. simpl in Hi.
  unfold timers_exact, timers_wf, map_Forall in *; simpl. split_and!.
  - intros h' v Hv. apply lookup_delete_Some in Hv as [_ Hv]. exact (Hh h' v Hv).
  - intros k h' Hk. apply lookup_delete_Some in Hk as [Hki Hk].
    pose proof (Hr k h' Hk) as Hkh.
    destruct (decide (h' = h)) as [->|Hne].
    + rewrite Eh in Hkh. congruence.
    + rewrite lookup_delete_ne by congruence. exact Hkh.
  - intros h' [j d'] Hv. apply lookup_delete_Some in Hv as [Hne Hv].
    pose proof (Hx h' (j, d') Hv) as Hj. simpl in *.
    destruct (decide (j = i)) as [->|Hji]; [congruence|].
    rewrite lookup_delete_ne by congruence. exact Hj.
Qed.

#[export] Hint Resolve fire_exact genId_timer_same : frame.

Lemma step_exact e : preserves exact_ok (step e).
Proof.
  destruct e; simpl;
    unfold toast, handle_dismiss, handle_update, hook_dismiss, hook_clearAll,
      cleanup; try solve [frame_exact].
  all: frame_exact; intros w; apply timer_same_exact; split_and!; reflexivity.
Qed.

Lemma run_exact w es : timers_exact w -> timers_exact (run w es).
Proof.
  revert w. induction es as [|e es IH]; intros w H; [exact H|].
  apply IH, step_exact, H.
Qed.

Lemma init_exact : timers_exact init.
Proof. split; [split|]; apply map_Forall_empty. Qed.

Lemma copy_view c g (L : list loc) w :
  wf_heap w -> Forall (fun l => is_Some (heap w !! l)) L ->
  let r := map_M (copy_cb c g) L w in
  map (load r.2) r.1 = map (fun t => if c t then g t else t) (map (load w) L) /\
  wf_heap r.2 /\ Forall (fun l => is_Some (heap r.2 !! l)) r.1 /\ heap_ext w r.2.
Proof.
  intros Hw HL. destruct (map_M_copy_spec c g L w Hw HL) as (Hw2 & He & HF & HA).
  simpl. destruct (map_M (copy_cb c g) L w) as [ys w2]. cbn [fst snd] in *.
  split_and!; [|exact Hw2|exact HA|exact He].
  clear HA HL. induction HF as [|l l' L L' Hc _ IH]; [reflexivity|].
  cbn [map]. f_equal; [|exact IH].
  unfold copied in Hc. destruct (c (load w l)); destruct Hc as [Hc1 Hc2];
    [exact Hc1|exact Hc2].
Qed.

Lemma update_view s p w :
  wf_heap w -> allocated w s ->
  let r := reducer s (UPDATE_TOAST p) w in
  view r.2 r.1 =
  map (fun t => if str_eq (id t) (p_id p) then spread t p else t) (view w s) /\
  wf_heap r.2 /\ allocated r.2 r.1.
Proof.
  intros Hw Ha. rewrite reducer_update_eq. cbn [fst snd].
  destruct (copy_view (fun t => str_eq (id t) (p_id p)) (fun t => spread t p)
              (toasts s) w Hw Ha) as (E & Hw2 & HA & _).
  unfold view, allocated. cbn [toasts]. split_and!; assumption.
Qed.

Lemma filter_view w (L : list loc) i :
  map (load w) (List.filter (fun l => negb (str_eq (id (load w l)) i)) L) =
  List.filter (fun t => negb (str_eq (id t) i)) (map (load w) L).
Proof.
  induction L as [|l L IH]; [reflexivity|]. simpl.
  destruct (negb (str_eq (id (load w l)) i)); simpl; rewrite IH; reflexivity.
Qed.

Lemma remove_some_eq s i w :
  reducer s (REMOVE_TOAST (Some i)) w =
  (mkState (List.filter (fun l => negb (str_eq (id (load w l)) i)) (toasts s)), w).
Proof. reflexivity. Qed.

Lemma dispatch_count a w : count (dispatch a w).2 = count w.
Proof.
  unfold dispatch. rewrite !bind_snd. simpl.
  destruct (reducer_io (memoryState w) a w) as (E&_). exact E.
Qed.

Lemma dispatch_next_loc a w :
  heap (dispatch a w).2 = heap (reducer (memoryState w) a w).2 /\
  next_loc (dispatch a w).2 = next_loc (reducer (memoryState w) a w).2.
Proof. split; [apply dispatch_snd_heap|apply dispatch_snd_timers]. Qed.

Lemma Forall_list_filter {A} (P : A -> Prop) (f : A -> bool) l :
  Forall P l -> Forall P (List.filter f l).
Proof.
  induction 1 as [|x l Hx _ IH]; [constructor|]. simpl.
  destruct (f x); [constructor|]; assumption.
Qed.

(** The ids of the stored toasts. *)
Definition ids (w : World) : list string := map id (view w (memoryState w)).

Definition id_bound (c : Z) (s : string) : Prop :=
  exists k, (1 <= k <= c)%Z /\ s = number_toString k.

Definition store_inv (w : World) : Prop :=
  wf_heap w /\ allocated w (memoryState w) /\ NoDup (ids w) /\
  Forall (id_bound (count w)) (ids w) /\ (0 <= count w)%Z.

Lemma store_inv_transfer w w' :
  store_inv w -> wf_heap w' -> allocated w' (memoryState w') ->
  ids w' `sublist_of` ids w -> count w' = count w -> store_inv w'.
Proof.
  intros (_&_&Hnd&Hb&Hc) Hw Ha Hs Ec. unfold store_inv. rewrite Ec. split_and!; try assumption.
  - exact (sublist_NoDup _ _ Hnd Hs).
  - apply Forall_forall. intros x Hx. eapply Forall_forall; [exact Hb|].
    eapply elem_of_sublist; eassumption.
Qed.

Lemma store_inv_same w w' :
  store_inv w -> heap_same w w' -> io_same w w' -> store_inv w'.
Proof.
  intros Hi [Eh En] (Ec&Em&_). pose proof Hi as (Hw&Ha&_).
  apply (store_inv_transfer w); [assumption| | | |exact Ec].
  - unfold wf_heap in *. rewrite Eh, En. exact Hw.
  - unfold allocated in *. rewrite Eh, Em. exact Ha.
  - unfold ids. rewrite Em, (view_heap w w' _ Eh). reflexivity.
Qed.

Lemma ids_map_same (f : ToasterToast -> ToasterToast) ts :
  (forall t, id (f t) = id t) -> map id (map f ts) = map id ts.
Proof. intros H. rewrite map_map. apply map_ext. exact H. Qed.

Lemma dispatch_inv a w :
  match a with ADD_TOAST _ => False | _ => True end ->
  store_inv w -> store_inv (dispatch a w).2.
Proof.
  intros Ha Hi. pose proof Hi as (Hw&Hal&_).
  destruct (dispatch_next_loc a w) as [Eh En].
  apply (store_inv_transfer w); [exact Hi| | | |apply dispatch_count].
  - unfold wf_heap. rewrite Eh, En. apply reducer_grows, Hw.
  - unfold allocated. rewrite Eh, dispatch_snd_memory.
    destruct a as [l|p|tid|[i|]|]; try contradiction.
    + apply (update_view (memoryState w) p w Hw Hal).
    + apply (dismiss_view (memoryState w) tid w Hw Hal).
    + rewrite remove_some_eq. apply Forall_list_filter. exact Hal.
    + constructor.
    + unfold reducer. rewrite bind_fst. constructor.
  - unfold ids. rewrite dispatch_snd_memory.
    rewrite (view_heap (reducer (memoryState w) a w).2 (dispatch a w).2 _ Eh).
    destruct a as [l|p|tid|[i|]|]; try contradiction.
    + destruct (update_view (memoryState w) p w Hw Hal) as (E&_). rewrite E.
      unfold ids. rewrite map_map. erewrite (map_ext _ id); [reflexivity|].
      intros t. destruct (str_eq (id t) (p_id p)) eqn:Es; [|reflexivity].
      apply String.eqb_eq in Es. simpl. symmetry. exact Es.
    + destruct (dismiss_view (memoryState w) tid w Hw Hal) as (E&_). rewrite E.
      rewrite ids_map_same; [reflexivity|]. intros t. destruct (dismiss_sel tid t); reflexivity.
    + rewrite remove_some_eq. cbn [fst snd]. unfold view. cbn [toasts]. rewrite filter_view.
      induction (map (load w) (toasts (memoryState w))) as [|t ts IH]; [constructor|].
      simpl. destruct (negb (str_eq (id t) i)); simpl; [apply sublist_skip|apply sublist_cons]; exact IH.
    + apply sublist_nil_l.
    + unfold reducer. rewrite bind_fst. apply sublist_nil_l.
Qed.

Lemma toast_spec props w :
  wf_heap w -> allocated w (memoryState w) ->
  let r := toast props w in
  let i := number_toString ((count w + 1) mod MAX_SAFE_INTEGER)%Z in
  r.1 = i /\ count r.2 = ((count w + 1) mod MAX_SAFE_INTEGER)%Z /\
  view r.2 (memoryState r.2) =
    take TOAST_LIMIT
      (mkToast i (in_title props) (in_description props) (in_action props)
         (in_duration props) (Some true) (in_variant props)
         (Some (DismissWhenClosed i)) :: view w (memoryState w)) /\
  wf_heap r.2 /\ allocated r.2 (memoryState r.2) /\
  (if bool_decide (in_duration props = Some 0%Z) then timer_same w r.2
   else scheduled r.2 i (default TOAST_REMOVE_DELAY (in_duration props))).
Proof.
  intros Hw Ha. unfold toast, mbind, M_bind, genId, alloc.
  cbn -[dispatch addToRemoveQueue take TOAST_LIMIT].
  set (c := ((count w + 1) mod MAX_SAFE_INTEGER)%Z).
  set (i := number_toString c).
  set (t0 := mkToast i (in_title props) (in_description props) (in_action props)
               (in_duration props) (Some true) (in_variant props)
               (Some (DismissWhenClosed i))).
  set (w2 := set_heap (<[next_loc w := t0]> (heap w)) (S (next_loc w)) (set_count c w)).
  assert (Hg : heap_grows w w2).
  { intros Hw'. apply (alloc_grows t0 (set_count c w) Hw'). }
  destruct (Hg Hw) as [Hw2 Hext].
  pose proof (dispatch_snd_memory (ADD_TOAST (next_loc w)) w2) as Em3.
  pose proof (dispatch_snd_heap (ADD_TOAST (next_loc w)) w2) as Eh3.
  destruct (dispatch_snd_timers (ADD_TOAST (next_loc w)) w2) as (Et3&Eth3&En3).
  pose proof (dispatch_count (ADD_TOAST (next_loc w)) w2) as Ec3.
  pose proof (dispatch_timer_same (ADD_TOAST (next_loc w)) I w2) as Ets3.
  destruct (dispatch (ADD_TOAST (next_loc w)) w2) as [u3 w3] eqn:E3.
  cbn [fst snd reducer mret M_ret] in Em3, Eh3, Et3, Eth3, En3, Ec3, Ets3.
  assert (Hw3 : wf_heap w3) by (unfold wf_heap; rewrite Eh3, En3; exact Hw2).
  assert (Hv3 : view w3 (memoryState w3) =
                take TOAST_LIMIT (t0 :: view w (memoryState w))).
  { rewrite Em3. unfold view. cbn [toasts]. rewrite <- firstn_map. f_equal.
    simpl map. f_equal.
    - unfold load. rewrite Eh3. simpl. rewrite lookup_insert_eq. reflexivity.
    - apply map_ext_in. intros l Hl. rewrite (load_heap w2 w3 l Eh3).
      apply (heap_ext_load w w2 l Hext). unfold allocated in Ha.
      rewrite Forall_forall in Ha. apply Ha, list_elem_of_In, Hl. }
  assert (Ha3 : allocated w3 (memoryState w3)).
  { rewrite Em3. unfold allocated. cbn [toasts].
    apply Forall_take. constructor.
    - rewrite Eh3. simpl. rewrite lookup_insert_eq. eexists; reflexivity.
    - eapply Forall_impl; [exact Ha|]. intros l [t Ht]. exists t.
      rewrite Eh3. apply Hext, Ht. }
  assert (Ec : count w3 = c) by (rewrite Ec3; reflexivity).
  assert (Hts : timer_same w w3).
  { etransitivity; [|exact Ets3]. split_and!; reflexivity. }
  clearbody w2 t0. clear E3.
  destruct (bool_decide (in_duration props = Some 0%Z)) eqn:Ed.
  - cbn [mret M_ret fst snd]. split_and!; try assumption; reflexivity.
  - pose proof (addToRemoveQueue_io i (in_duration props) w3) as (Ec4&Em4&_).
    pose proof (addToRemoveQueue_heap i (in_duration props) w3) as [Eh4 En4].
    pose proof (addToRemoveQueue_scheduled i (in_duration props) w3) as Hs4.
    destruct (addToRemoveQueue i (in_duration props) w3) as [u4 w4].
    cbn [mret M_ret fst snd] in *. split_and!.
    + reflexivity.
    + rewrite Ec4. exact Ec.
    + rewrite Em4, (view_heap w3 w4 _ Eh4). exact Hv3.
    + unfold wf_heap. rewrite Eh4, En4. exact Hw3.
    + unfold allocated. rewrite Eh4, Em4. exact Ha3.
    + exact Hs4.
Qed.

Definition is_create (e : Event) : bool :=
  match e with CreateToast _ => true | _ => false end.

Definition creations (es : list Event) : nat := length (List.filter is_create es).

(** Events a user of the module can cause: [dispatch] is not exported
    and [ADD_TOAST] is only ever dispatched by [toast]. *)
Definition no_raw_add (e : Event) : Prop :=
  match e with Dispatch (ADD_TOAST _) => False | _ => True end.

Lemma store_inv_keep w w' :
  store_inv w -> heap w' = heap w -> next_loc w' = next_loc w ->
  memoryState w' = memoryState w -> count w' = count w -> store_inv w'.
Proof.
  intros Hi Eh En Em Ec. pose proof Hi as (Hw&Ha&_).
  apply (store_inv_transfer w); [exact Hi| | | |exact Ec].
  - unfold wf_heap in *. rewrite Eh, En. exact Hw.
  - unfold allocated in *. rewrite Eh, Em. exact Ha.
  - unfold ids. rewrite Em, (view_heap w w' _ Eh). reflexivity.
Qed.

Lemma store_inv_pres_same {A} (m : M A) w :
  preserves heap_same m -> preserves io_same m -> store_inv w -> store_inv (m w).2.
Proof. intros H1 H2 Hi. apply (store_inv_same w); [exact Hi|apply H1|apply H2]. Qed.

Lemma toast_inv props w :
  store_inv w -> (count w + 1 < MAX_SAFE_INTEGER)%Z ->
  store_inv (toast props w).2 /\ count (toast props w).2 = (count w + 1)%Z.
Proof.
  intros Hi Hc. pose proof Hi as (Hw&Ha&Hnd&Hb&H0).
  destruct (toast_spec props w Hw Ha) as (_&Ec&Hv&Hw'&Ha'&_).
  rewrite Z.mod_small in Ec, Hv by lia.
  set (i := number_toString (count w + 1)) in Hv.
  assert (Hfresh : i ∉ ids w).
  { intros Hin. rewrite Forall_forall in Hb. destruct (Hb i Hin) as (k&Hk&Ek).
    apply number_toString_inj in Ek; lia. }
  assert (Eids : ids (toast props w).2 = take TOAST_LIMIT (i :: ids w)).
  { unfold ids. rewrite Hv. rewrite <- firstn_map. reflexivity. }
  split; [|exact Ec].
  unfold store_inv. rewrite Eids, Ec. split_and!; [exact Hw'|exact Ha'| | |lia].
  - eapply sublist_NoDup; [|apply sublist_take]. constructor; assumption.
  - apply Forall_take. constructor.
    + exists (count w + 1)%Z. split; [lia|reflexivity].
    + eapply Forall_impl; [exact Hb|]. intros s (k&Hk&Ek). exists k. split; [lia|exact Ek].
Qed.

Lemma step_inv e w :
  no_raw_add e -> store_inv w ->
  (if is_create e then count w + 1 < MAX_SAFE_INTEGER else True)%Z ->
  store_inv (step e w).2 /\
  count (step e w).2 = (count w + if is_create e then 1 else 0)%Z.
Proof.
  intros He Hi Hc. destruct e as [a|props|i|i p|tid| |h|k|]; cbn [step is_create].
  - split; [apply dispatch_inv; [destruct a; auto|exact Hi]|].
    rewrite dispatch_count. lia.
  - rewrite bind_snd. cbn [mret M_ret snd]. apply toast_inv; assumption.
  - unfold handle_dismiss. rewrite bind_snd. split.
    + apply dispatch_inv; [exact I|]. apply store_inv_pres_same; [frame|frame|exact Hi].
    + rewrite dispatch_count. pose proof (removeFromRemoveQueue_io i w) as (E&_). lia.
  - unfold handle_update. split; [apply dispatch_inv; [exact I|exact Hi]|].
    rewrite dispatch_count. lia.
  - unfold hook_dismiss. rewrite bind_snd.
    set (m := if truthy tid then
                match tid with Some s => removeFromRemoveQueue s | None => mret tt end
              else mret tt).
    assert (H1 : preserves heap_same m) by (unfold m; frame).
    assert (H2 : preserves io_same m) by (unfold m; frame).
    split.
    + apply dispatch_inv; [exact I|]. apply store_inv_pres_same; assumption.
    + rewrite dispatch_count. destruct (H2 w) as (E&_). lia.
  - unfold hook_clearAll. split; [apply dispatch_inv; [exact I|exact Hi]|].
    rewrite dispatch_count. lia.
  - unfold fire, mbind, M_bind, gets. cbn [fst snd].
    destruct (timers w !! h) as [[i d]|]; [|cbn; split; [exact Hi|lia]].
    cbn [modify map_delete fst snd]. split.
    + apply dispatch_inv; [exact I|]. eapply store_inv_keep; [exact Hi|..]; reflexivity.
    + rewrite dispatch_count. simpl. lia.
  - cbn [modify snd]. split; [|simpl; lia].
    eapply store_inv_keep; [exact Hi|..]; reflexivity.
  - unfold cleanup. rewrite bind_snd. cbn [modify snd].
    pose proof (clearAllTimeouts_io w) as (Ec1&_).
    pose proof (clearAllTimeouts_heap w) as [Eh1 En1].
    split; [|simpl; lia].
    apply (store_inv_transfer w); [exact Hi| | | |simpl; exact Ec1].
    + unfold wf_heap. simpl. rewrite Eh1, En1. apply Hi.
    + constructor.
    + apply sublist_nil_l.
Qed.

Lemma run_inv w es :
  Forall no_raw_add es -> store_inv w ->
  (count w + Z.of_nat (creations es) < MAX_SAFE_INTEGER)%Z ->
  store_inv (run w es) /\ count (run w es) = (count w + Z.of_nat (creations es))%Z.
Proof.
  revert w. induction es as [|e es IH]; intros w Hes Hi Hc.
  - unfold creations. simpl. split; [exact Hi|lia].
  - inversion Hes as [|? ? He Hes']; subst. cbn [run].
    unfold creations in *. cbn [List.filter] in Hc |- *.
    assert (Hc1 : (if is_create e then count w + 1 < MAX_SAFE_INTEGER else True)%Z).
    { destruct (is_create e); simpl length in Hc; [lia|exact I]. }
    destruct (step_inv e w He Hi Hc1) as [Hi' Ec'].
    destruct (IH (step e w).2 Hes' Hi') as [Hr Er].
    + rewrite Ec'. destruct (is_create e); simpl length in Hc; lia.
    + split; [exact Hr|]. rewrite Er, Ec'. destruct (is_create e); simpl length; lia.
Qed.

Lemma init_store_inv : store_inv init.
Proof.
  split_and!.
  - apply map_Forall_empty.
  - constructor.
  - constructor.
  - constructor.
  - simpl. lia.
Qed.

Lemma run_init_exact es : timers_exact (run init es).
Proof. apply run_exact, init_exact. Qed.

Lemma clear_all_state w :
  timers_exact w ->
  timers (dispatch CLEAR_ALL_TOASTS w).2 = ∅ /\
  toastTimeouts (dispatch CLEAR_ALL_TOASTS w).2 = ∅ /\
  toasts (memoryState (dispatch CLEAR_ALL_TOASTS w).2) = [].
Proof.
  intros Hx. destruct (dispatch_snd_timers CLEAR_ALL_TOASTS w) as (E1&_&_).
  rewrite E1, dispatch_snd_timeouts, dispatch_snd_memory.
  unfold reducer. rewrite !bind_snd, bind_fst. cbn [mret M_ret fst snd].
  split_and!; [apply clearAllTimeouts_timers_empty, Hx|apply clearAllTimeouts_empty|reflexivity].
Qed.

Lemma handle_dismiss_scheduled i w :
  i <> "" -> scheduled (handle_dismiss i w).2 i TOAST_REMOVE_DELAY.
Proof.
  intros Hi. unfold handle_dismiss. rewrite bind_snd.
  apply scheduled_dispatch, dismiss_some_scheduled, Hi.
Qed.

Lemma dismiss_sel_some i t : dismiss_sel (Some i) t = String.eqb (id t) i.
Proof.
  unfold dismiss_sel. rewrite orb_false_r.
  destruct (String.eqb_spec (id t) i) as [->|Hne].
  - apply bool_decide_eq_true_2. reflexivity.
  - apply bool_decide_eq_false_2. congruence.
Qed.

Lemma dismiss_sel_none t : dismiss_sel None t = true.
Proof. unfold dismiss_sel. rewrite orb_true_r. reflexivity. Qed.

(** A DISMISS dispatched after a prefix [m] that touches neither the
    objects nor the store. *)
Lemma dispatch_dismiss_after {A} (m : M A) tid w :
  preserves heap_same m -> preserves io_same m ->
  wf_heap w -> allocated w (memoryState w) ->
  let w' := (dispatch (DISMISS_TOAST tid) (m w).2).2 in
  view w' (memoryState w') =
  map (fun t => if dismiss_sel tid t then close t else t) (view w (memoryState w)) /\
  wf_heap w' /\ allocated w' (memoryState w').
Proof.
  intros H1 H2 Hw Ha. simpl.
  destruct (H1 w) as [Eh En]. destruct (H2 w) as (_&Em&_).
  set (w1 := (m w).2) in *.
  assert (Hw1 : wf_heap w1) by (unfold wf_heap; rewrite Eh, En; exact Hw).
  assert (Ha1 : allocated w1 (memoryState w1)) by (unfold allocated; rewrite Eh, Em; exact Ha).
  destruct (dismiss_view (memoryState w1) tid w1 Hw1 Ha1) as (E&Hw2&Ha2).
  rewrite dispatch_view, E, Em, (view_heap w w1 _ Eh).
  split; [reflexivity|]. apply dispatch_wf; assumption.
Qed.

Lemma handle_dismiss_view w i :
  wf_heap w -> allocated w (memoryState w) ->
  let w' := (handle_dismiss i w).2 in
  view w' (memoryState w') =
  map (fun t => if String.eqb (id t) i then close t else t) (view w (memoryState w)).
Proof.
  intros Hw Ha. unfold handle_dismiss. simpl. rewrite bind_snd.
  destruct (dispatch_dismiss_after (removeFromRemoveQueue i) (Some i) w)
    as (E&_); [frame|frame|exact Hw|exact Ha|].
  rewrite E. apply map_ext. intros t. rewrite dismiss_sel_some. reflexivity.
Qed.

(** [{ ...props, variant: v }] *)

Lemma indexOf_from_spec ls k i :
  ((k ∉ ls) /\ indexOf_from ls k i = (-1)%Z) \/
  (exists l1 l2, ls = l1 ++ k :: l2 /\ (k ∉ l1) /\
                 indexOf_from ls k i = (i + Z.of_nat (length l1))%Z).
Proof.
  revert i. induction ls as [|x ls IH]; intros i.
  - left. split; [apply not_elem_of_nil|reflexivity].
  - cbn [indexOf_from]. destruct (Nat.eqb_spec x k) as [->|Hne].
    + right. exists [], ls. split_and!; [reflexivity|apply not_elem_of_nil|simpl; lia].
    + destruct (IH (i + 1)%Z) as [[Hn E]|(l1&l2&E1&Hn&E)].
      * left. split; [|exact E]. intros Hin. apply elem_of_cons in Hin as [|]; auto.
      * right. exists (x :: l1), l2. split_and!.
        -- rewrite E1. reflexivity.
        -- intros Hin. apply elem_of_cons in Hin as [|]; auto.
        -- rewrite E. simpl length. lia.
Qed.

Lemma indexOf_from_last ls k i :
  k ∉ ls -> indexOf_from (ls ++ [k]) k i = (i + Z.of_nat (length ls))%Z.
Proof.
  revert i. induction ls as [|x ls IH]; intros i Hk.
  - simpl. rewrite Nat.eqb_refl. lia.
  - cbn [app indexOf_from]. apply not_elem_of_cons in Hk as [Hx Hk].
    destruct (Nat.eqb_spec x k) as [->|_]; [contradiction|].
    rewrite IH by exact Hk. simpl length. lia.
Qed.

(** No subscriber, and no listener call recorded. *)

Definition quiet (w w' : World) : Prop :=
  listeners w = [] -> listeners w' = [] /\ rendered w' = rendered w.

Global Instance quiet_pre : PreOrder quiet.
Proof.
  split.
  - intros w H. split; [exact H|reflexivity].
  - intros w1 w2 w3 H12 H23 H1. destruct (H12 H1) as [H2 E2].
    destruct (H23 H2) as [H3 E3]. split; [exact H3|congruence].
Qed.

Lemma io_same_quiet w w' : io_same w w' -> quiet w w'.
Proof. intros (_&_&El&Er) H. rewrite El, Er. split; [exact H|reflexivity]. Qed.

Lemma dispatch_quiet a : preserves quiet (dispatch a).
Proof.
  intros w H. unfold dispatch. rewrite !bind_snd. cbn [gets fst snd modify set_store
    listeners rendered].
  destruct (reducer_io (memoryState w) a w) as (_&_&El&Er).
  rewrite El, Er, H. split; [reflexivity|]. apply app_nil_r.
Qed.

Lemma genId_quiet : preserves quiet genId.
Proof. intros w H. split; [exact H|reflexivity]. Qed.

#[export] Hint Resolve dispatch_quiet genId_quiet : frame.

Ltac frame_quiet :=
  repeat first
    [ solve [eauto with frame typeclass_instances]
    | solve [eapply preserves_mono; [apply io_same_quiet|eauto with frame]]
    | apply preserves_ret
    | apply preserves_bind; [typeclasses eauto| |intros ?]
    | apply preserves_gets
    | progress case_match ].

Definition not_subscribe (e : Event) : Prop :=
  match e with Subscribe _ => False | _ => True end.

Lemma step_quiet e : not_subscribe e -> preserves quiet (step e).
Proof.
  destruct e; intros []; cbn [step];
    unfold toast, handle_dismiss, handle_update, hook_dismiss, hook_clearAll,
      fire, cleanup; frame_quiet.
  intros w H. split; reflexivity.
Qed.

Lemma mod_window_inj (x a b m : Z) :
  (0 < m)%Z -> (1 <= a <= m)%Z -> (1 <= b <= m)%Z ->
  ((x + a) mod m = (x + b) mod m)%Z -> a = b.
Proof.
  intros Hm Ha Hb E. rewrite !Z.mod_eq in E by lia.
  set (q1 := ((x + a) / m)%Z) in E. set (q2 := ((x + b) / m)%Z) in E.
  destruct (Z.lt_total q1 q2) as [Hq|[Hq|Hq]]; [nia|subst; lia|nia].
Qed.

Lemma number_toString_nonempty z : (0 <= z)%Z -> number_toString z <> "".
Proof.
  intros H. rewrite number_toString_nonneg by exact H.
  pose proof (to_uint_nonnil (Z.to_N z)) as Hn.
  destruct (N.to_uint (Z.to_N z)); [contradiction|discriminate..].
Qed.

Lemma take_limit_head (t : ToasterToast) l : head (take TOAST_LIMIT (t :: l)) = Some t.
Proof. unfold TOAST_LIMIT. reflexivity. Qed.

Lemma toast_id_nonempty props w : (toast props w).1 <> "".
Proof.
  unfold toast, mbind, M_bind, genId. cbn -[dispatch addToRemoveQueue alloc].
  destruct (alloc _ _) as [l w2]. cbn [fst snd].
  destruct (dispatch _ _) as [u3 w3]. cbn [fst snd].
  destruct (bool_decide _); [|destruct (addToRemoveQueue _ _ _)];
    cbn [fst snd mret M_ret]; apply number_toString_nonempty, Z.mod_pos_bound;
    unfold MAX_SAFE_INTEGER; lia.
Qed.

(** ** Claims *)

(** C1 (amended).  The reducer performs no I/O (the counter, the store,
    the subscribers and the listener calls are untouched) and never writes
    to an existing toast object, only allocating fresh ones; it leaves the
    timers and the registry unchanged for ADD, UPDATE and REMOVE.  It is
    not free of timer effects: DISMISS with a non-empty id arms a removal
    timer for that id, and CLEAR_ALL empties the registry. *)
Theorem reducer_effects (s : State) (a : Action) (w : World) :
  let w' := (reducer s a w).2 in
  io_same w w' /\ heap_grows w w' /\
  match a with
  | DISMISS_TOAST (Some i) => i = "" \/ exists d, scheduled w' i d
  | DISMISS_TOAST None => True
  | CLEAR_ALL_TOASTS => toastTimeouts w' = ∅
  | _ => timer_same w w'
  end.
Proof.
  simpl. split; [apply reducer_io|]. split; [apply reducer_grows|].
  destruct a as [l|p|[i|]|tid|]; try (apply reducer_timer_same; exact I).
  - destruct (String.eqb_spec i "") as [E|E]; [left; exact E|right].
    exists TOAST_REMOVE_DELAY. apply dismiss_some_scheduled, E.
  - exact I.
  - unfold reducer. rewrite bind_snd. apply clearAllTimeouts_empty.
Qed.

(** C1 counterexample: dispatching DISMISS for id "1" on the initial
    module changes the timer registry inside the reducer. *)
Lemma reducer_dismiss_changes_registry :
  toastTimeouts (reducer (mkState []) (DISMISS_TOAST (Some "1")) init).2
  <> toastTimeouts init.
Proof.
  intros H.
  assert (E : toastTimeouts (reducer (mkState []) (DISMISS_TOAST (Some "1")) init).2
              !! "1" = Some 1%positive) by (vm_compute; reflexivity).
  rewrite H in E. vm_compute in E. discriminate.
Qed.

(** C2 (amended).  After any sequence of events ending in a dispatched
    CLEAR_ALL the registry is empty; a final REMOVE with no id leaves the
    registry as it was before it. *)
Theorem registry_after_clear_and_remove_all (w : World) (es : list Event) :
  toastTimeouts (run w (es ++ [Dispatch CLEAR_ALL_TOASTS])) = ∅ /\
  toastTimeouts (run w (es ++ [Dispatch (REMOVE_TOAST None)])) =
  toastTimeouts (run w es).
Proof.
  rewrite !run_app. simpl. rewrite !dispatch_snd_timeouts. split.
  - unfold reducer. rewrite bind_snd. apply clearAllTimeouts_empty.
  - reflexivity.
Qed.

(** C2 counterexample: a toast created with the default duration, then a
    dispatched REMOVE with no id: its timer stays registered. *)
Lemma remove_all_keeps_timer :
  toastTimeouts (run init [CreateToast (input (Some "A") None);
                           Dispatch (REMOVE_TOAST None)]) <> ∅.
Proof.
  intros H.
  assert (E : toastTimeouts (run init [CreateToast (input (Some "A") None);
                                       Dispatch (REMOVE_TOAST None)])
              !! "1" = Some 1%positive) by (vm_compute; reflexivity).
  rewrite H in E. vm_compute in E. discriminate.
Qed.

(** C3.  Each ADD leaves min(TOAST_LIMIT, previous count + 1) toasts; a
    sequence of ADDs from any reachable state leaves the newest
    TOAST_LIMIT toasts, newest first (the added ones alone once at least
    TOAST_LIMIT were added); no reachable state holds more than
    TOAST_LIMIT toasts. *)
Theorem add_capacity :
  (forall (s : State) (l : loc) (w : World),
     length (toasts (reducer s (ADD_TOAST l) w).1) =
     Nat.min TOAST_LIMIT (length (toasts s) + 1)) /\
  (forall (es : list Event) (ls : list loc),
     toasts (memoryState (run (run init es) (adds ls))) =
     take TOAST_LIMIT (rev ls ++ toasts (memoryState (run init es)))) /\
  (forall (es : list Event) (ls : list loc),
     TOAST_LIMIT <= length ls ->
     toasts (memoryState (run (run init es) (adds ls))) =
     take TOAST_LIMIT (rev ls)) /\
  (forall es : list Event,
     length (toasts (memoryState (run init es))) <= TOAST_LIMIT).
Proof.
  split_and!.
  - intros s l w. unfold reducer, mret, M_ret. cbn [fst toasts].
    rewrite length_take. cbn [length]. lia.
  - intros es ls. apply run_adds, run_len, init_len.
  - intros es ls H. rewrite run_adds by apply run_len, init_len.
    rewrite take_app_le by (rewrite length_rev; exact H). reflexivity.
  - intros es. apply run_len, init_len.
Qed.

(** C4 (code defect).  A toast created with duration 1000, then closed
    through its own [dismiss] handle: the removal timer armed for it uses
    the default delay 5000, not its duration.  The global path passes
    [toast.duration]; the single-id path calls [addToRemoveQueue(toastId)]
    without it. *)
Theorem single_dismiss_uses_default_delay :
  let w := run init [CreateToast (input (Some "A") (Some 1000%Z));
                     HandleDismiss "1"] in
  map duration (view w (memoryState w)) = [Some 1000%Z] /\
  scheduled w "1" TOAST_REMOVE_DELAY /\ ~ scheduled w "1" 1000%Z.
Proof.
  split_and!.
  - vm_compute. reflexivity.
  - exists 2%positive. vm_compute. split; reflexivity.
  - intros (h & H1 & H2). vm_compute in H1. injection H1 as <-.
    vm_compute in H2. discriminate.
Qed.

(** C5 (amended).  Creating a toast with duration 0 arms no timer and
    leaves the registry unchanged.  Dismissing it does arm one: the
    [dismiss] of its handle arms a removal timer for its id, and a global
    DISMISS arms one with the toast's own duration 0. *)
Theorem persistent_toast_timers :
  (forall (props : ToastInput) (w : World),
     in_duration props = Some 0%Z -> timer_same w (toast props w).2) /\
  (forall (i : string) (w : World),
     i <> "" -> exists d, scheduled (handle_dismiss i w).2 i d) /\
  (forall (L1 L2 : list loc) (x : loc) (w : World),
     timers_wf w -> toasts (memoryState w) = L1 ++ x :: L2 ->
     duration (load w x) = Some 0%Z ->
     Forall (fun l => id (load w l) <> id (load w x)) L2 ->
     scheduled (dispatch (DISMISS_TOAST None) w).2 (id (load w x)) 0%Z).
Proof.
  split_and!.
  - intros props w Hd. revert w.
    assert (Hadd : forall l, preserves timer_same (dispatch (ADD_TOAST l)))
      by (intros l; apply dispatch_timer_same; exact I).
    unfold toast. frame.
    all: match goal with H : bool_decide _ = false |- _ =>
      apply bool_decide_eq_false in H; contradiction end.
  - intros i w Hi. exists TOAST_REMOVE_DELAY. unfold handle_dismiss. rewrite bind_snd.
    apply scheduled_dispatch, dismiss_some_scheduled, Hi.
  - intros L1 L2 x w Hwf Ets Hd HL2.
    pose proof (global_dismiss_scheduled L1 L2 x w Hwf Ets HL2) as H.
    rewrite Hd in H. exact H.
Qed.

(** C5 counterexample: a toast "1" created with duration 0 arms no
    timer, but a global dismiss arms a 0 ms timer for it, whose firing
    removes the toast.  The hook's [dismiss("")] does the same while the
    toast stays open: it is removed without ever having been closed. *)
Lemma persistent_toast_gets_timer_on_dismiss :
  toastTimeouts (run init [CreateToast (input (Some "P") (Some 0%Z))]) = ∅ /\
  scheduled (run init [CreateToast (input (Some "P") (Some 0%Z)); HookDismiss None])
    "1" 0%Z /\
  toasts (memoryState (run init [CreateToast (input (Some "P") (Some 0%Z));
                                 HookDismiss None; Fire 1%positive])) = [] /\
  (let w := run init [CreateToast (input (Some "P") (Some 0%Z)); HookDismiss (Some "")] in
   map open (view w (memoryState w)) = [Some true] /\ scheduled w "1" 0%Z) /\
  toasts (memoryState (run init [CreateToast (input (Some "P") (Some 0%Z));
                                 HookDismiss (Some ""); Fire 1%positive])) = [].
Proof.
  cbv zeta. split_and!.
  - vm_compute. reflexivity.
  - exists 1%positive. vm_compute. split; reflexivity.
  - vm_compute. reflexivity.
  - vm_compute. reflexivity.
  - exists 1%positive. vm_compute. split; reflexivity.
  - vm_compute. reflexivity.
Qed.

(** C10.  DISMISS with a non-empty id that no toast has still arms a
    removal timer for that id, and leaves the toast list as it was. *)
Theorem dismiss_absent_id_arms_timer (s : State) (i : string) (w : World) :
  i <> "" -> Forall (fun l => id (load w l) <> i) (toasts s) ->
  scheduled (reducer s (DISMISS_TOAST (Some i)) w).2 i TOAST_REMOVE_DELAY /\
  toasts (reducer s (DISMISS_TOAST (Some i)) w).1 = toasts s.
Proof.
  intros Hi Habs. split.
  - apply dismiss_some_scheduled, Hi.
  - apply dismiss_absent_fst, Habs.
Qed.


(** C6.  UPDATE, DISMISS and REMOVE with an id that no toast of the
    state has return the same toast list (the reducer is total, so none of
    them throws). *)
Theorem unknown_id_noop (s : State) (w : World) (i : string) :
  Forall (fun l => id (load w l) <> i) (toasts s) ->
  (forall p : PartialToast, p_id p = i ->
     toasts (reducer s (UPDATE_TOAST p) w).1 = toasts s) /\
  toasts (reducer s (DISMISS_TOAST (Some i)) w).1 = toasts s /\
  toasts (reducer s (REMOVE_TOAST (Some i)) w).1 = toasts s.
Proof.
  intros Habs. split_and!.
  - intros p Hp. rewrite reducer_update_eq. cbn [fst toasts].
    rewrite map_M_copy_cb_none; [reflexivity|].
    eapply Forall_impl; [exact Habs|]. intros l Hl. subst i.
    unfold str_eq. apply String.eqb_neq, Hl.
  - apply dismiss_absent_fst, Habs.
  - unfold reducer. rewrite bind_fst. cbn [fst toasts gets mret M_ret].
    apply filter_all_true. eapply Forall_impl; [exact Habs|]. intros l Hl.
    unfold str_eq. apply negb_true_iff, String.eqb_neq, Hl.
Qed.

Definition title_update (i : string) (X : Node) : PartialToast :=
  mkPartial i (Some (Some X)) None None None None None None.

(** C7.  UPDATE [{id, title: X}]: each toast with that id is replaced by
    a fresh object equal to it except for its title, now X; each other
    toast is the very same object, with the same contents. *)
Theorem update_title_only (s : State) (w : World) (i : string) (X : Node) :
  wf_heap w -> allocated w s ->
  Forall2 (fun l l' =>
     let t := load w l in
     let w' := (reducer s (UPDATE_TOAST (title_update i X)) w).2 in
     if str_eq (id t) i
     then load w' l' = mkToast (id t) (Some X) (description t) (action t)
                         (duration t) (open t) (variant t) (onOpenChange t) /\
          heap w !! l' = None
     else l' = l /\ load w' l' = t)
   (toasts s) (toasts (reducer s (UPDATE_TOAST (title_update i X)) w).1).
Proof.
  intros Hw Ha. rewrite reducer_update_eq. cbn [fst snd toasts].
  destruct (map_M_copy_spec (fun t => str_eq (id t) (p_id (title_update i X)))
              (fun t => spread t (title_update i X)) (toasts s) w Hw Ha)
    as (_ & _ & HF & _).
  eapply Forall2_impl; [exact HF|]. intros l l' Hc. unfold copied in Hc.
  cbn beta zeta. cbn [p_id title_update] in *.
  destruct (str_eq (id (load w l)) i) eqn:E; [|exact Hc].
  destruct Hc as [Hc1 Hc2]. split; [|exact Hc2].
  rewrite Hc1. unfold str_eq in E. apply String.eqb_eq in E. rewrite E.
  reflexivity.
Qed.

(** C8.  Dispatching DISMISS twice in a row leaves the same toasts (as
    values) as dispatching it once. *)
Theorem dismiss_idempotent (w : World) (tid : option string) :
  wf_heap w -> allocated w (memoryState w) ->
  view (dispatch (DISMISS_TOAST tid) (dispatch (DISMISS_TOAST tid) w).2).2
    (memoryState (dispatch (DISMISS_TOAST tid) (dispatch (DISMISS_TOAST tid) w).2).2) =
  view (dispatch (DISMISS_TOAST tid) w).2
    (memoryState (dispatch (DISMISS_TOAST tid) w).2).
Proof.
  intros Hw Ha.
  destruct (dismiss_view (memoryState w) tid w Hw Ha) as (V1 & Hw1 & Ha1).
  destruct (dispatch_wf (DISMISS_TOAST tid) w Hw1 Ha1) as [Hw1' Ha1'].
  set (w1 := (dispatch (DISMISS_TOAST tid) w).2) in *.
  destruct (dismiss_view (memoryState w1) tid w1 Hw1' Ha1') as (V2 & _ & _).
  rewrite dispatch_view, V2. unfold w1. rewrite dispatch_view, V1.
  rewrite map_map. apply map_ext. intros t. apply close_sel_idem.
Qed.

(** C9.  Each call of [genId] returns the decimal string of
    (counter + 1) mod MAX_SAFE_INTEGER and stores that value; from the
    initial counter 0 the k-th call returns the string of k, so the first
    MAX_SAFE_INTEGER - 1 ids are pairwise distinct. *)
Theorem genId_unique :
  (forall w : World,
     genId w = (number_toString ((count w + 1) mod MAX_SAFE_INTEGER),
                set_count ((count w + 1) mod MAX_SAFE_INTEGER) w)) /\
  (forall n : nat, (Z.of_nat n < MAX_SAFE_INTEGER)%Z ->
     (genIds n init).1 = map (fun k => number_toString (Z.of_nat k)) (seq 1 n)) /\
  NoDup (genIds (Z.to_nat (MAX_SAFE_INTEGER - 1)) init).1.
Proof.
  assert (Hk : forall n, (Z.of_nat n < MAX_SAFE_INTEGER)%Z ->
     (genIds n init).1 = map (fun k => number_toString (Z.of_nat k)) (seq 1 n)).
  { intros n Hn. rewrite genIds_spec by (cbn [count init]; unfold MAX_SAFE_INTEGER; lia).
    apply map_ext_in. intros k Hin. apply in_seq in Hin. cbn [count init].
    f_equal. rewrite Z.mod_small; lia. }
  split_and!.
  - intros w. reflexivity.
  - exact Hk.
  - rewrite Hk by (unfold MAX_SAFE_INTEGER; lia).
    apply (NoDup_fmap_2_strong (fun k => number_toString (Z.of_nat k)));
      [|apply NoDup_seq].
    intros a b _ _ E. apply number_toString_inj in E; lia.
Qed.

(** ** Witnesses *)

Lemma unknown_id_noop_witness :
  Forall (fun l => id (load demo_world l) <> "9") (toasts (memoryState demo_world)) /\
  toasts (reducer (memoryState demo_world) (DISMISS_TOAST (Some "9")) demo_world).1 =
  toasts (memoryState demo_world).
Proof.
  assert (H : Forall (fun l => id (load demo_world l) <> "9")
                (toasts (memoryState demo_world))) by forall_neq.
  split; [exact H|].
  exact (proj1 (proj2 (unknown_id_noop (memoryState demo_world) demo_world "9" H))).
Defined.

Lemma update_title_only_witness :
  wf_heap demo_world /\ allocated demo_world (memoryState demo_world) /\
  Forall2 (fun l l' =>
     let t := load demo_world l in
     let w' := (reducer (memoryState demo_world)
                  (UPDATE_TOAST (title_update "1" "X")) demo_world).2 in
     if str_eq (id t) "1"
     then load w' l' = mkToast (id t) (Some "X") (description t) (action t)
                         (duration t) (open t) (variant t) (onOpenChange t) /\
          heap demo_world !! l' = None
     else l' = l /\ load w' l' = t)
   (toasts (memoryState demo_world))
   (toasts (reducer (memoryState demo_world)
              (UPDATE_TOAST (title_update "1" "X")) demo_world).1).
Proof.
  assert (Hw : wf_heap demo_world) by (apply wf_heap_b_sound; vm_compute; reflexivity).
  assert (Ha : allocated demo_world (memoryState demo_world))
    by (apply allocated_b_sound; vm_compute; reflexivity).
  split_and!; [exact Hw|exact Ha|].
  exact (update_title_only (memoryState demo_world) demo_world "1" "X" Hw Ha).
Defined.

Lemma dismiss_idempotent_witness :
  wf_heap demo_world /\ allocated demo_world (memoryState demo_world) /\
  view (dispatch (DISMISS_TOAST (Some "1"))
          (dispatch (DISMISS_TOAST (Some "1")) demo_world).2).2
    (memoryState (dispatch (DISMISS_TOAST (Some "1"))
                    (dispatch (DISMISS_TOAST (Some "1")) demo_world).2).2) =
  view (dispatch (DISMISS_TOAST (Some "1")) demo_world).2
    (memoryState (dispatch (DISMISS_TOAST (Some "1")) demo_world).2).
Proof.
  assert (Hw : wf_heap demo_world) by (apply wf_heap_b_sound; vm_compute; reflexivity).
  assert (Ha : allocated demo_world (memoryState demo_world))
    by (apply allocated_b_sound; vm_compute; reflexivity).
  split_and!; [exact Hw|exact Ha|].
  exact (dismiss_idempotent demo_world (Some "1") Hw Ha).
Defined.

Lemma dismiss_absent_id_arms_timer_witness :
  "7" <> "" /\
  Forall (fun l => id (load demo_world l) <> "7") (toasts (memoryState demo_world)) /\
  scheduled (reducer (memoryState demo_world) (DISMISS_TOAST (Some "7")) demo_world).2
    "7" TOAST_REMOVE_DELAY /\
  toasts (reducer (memoryState demo_world) (DISMISS_TOAST (Some "7")) demo_world).1 =
  toasts (memoryState demo_world).
Proof.
  assert (Hi : "7" <> "") by discriminate.
  assert (H : Forall (fun l => id (load demo_world l) <> "7")
                (toasts (memoryState demo_world))) by forall_neq.
  split; [exact Hi|]. split; [exact H|].
  exact (dismiss_absent_id_arms_timer (memoryState demo_world) "7" demo_world Hi H).
Defined.

(** ** Further properties *)

(** X1.  In every state reachable from module load, each armed removal timer is the one registered in [toastTimeouts] for the id its callback removes, and each registered handle is an armed timer for that id. *)
Theorem timers_registry_agree es :
  let w := run init es in
  (forall h i d, timers w !! h = Some (i, d) -> toastTimeouts w !! i = Some h) /\
  (forall i h, toastTimeouts w !! i = Some h -> exists d, timers w !! h = Some (i, d)).
Proof.
  destruct (run_init_exact es) as [[_ Hr] Hx]. simpl. split.
  - intros h i d H. exact (Hx h (i, d) H).
  - intros i h H. pose proof (Hr i h H) as Hh.
    revert Hh. cbv beta. destruct (timers (run init es) !! h) as [[i' d]|]; intros Hh; [|contradiction].
    subst i'. exists d. reflexivity.
Qed.

(** X2.  After any sequence of operations followed by the hook's [clearAll], no removal timer is armed, the registry is empty and the list has no toasts; after [cleanup] the same holds and there are no listeners. *)
Theorem no_timer_after_clear es :
  (let w := run init (es ++ [HookClearAll]) in
   timers w = ∅ /\ toastTimeouts w = ∅ /\ toasts (memoryState w) = []) /\
  (let w := run init (es ++ [Cleanup]) in
   timers w = ∅ /\ toastTimeouts w = ∅ /\ toasts (memoryState w) = [] /\
   listeners w = []).
Proof.
  rewrite !run_app. cbn [run step]. split.
  - unfold hook_clearAll. apply clear_all_state, run_init_exact.
  - unfold cleanup. rewrite bind_snd. cbn [modify snd set_store timers toastTimeouts
      memoryState listeners toasts].
    split_and!; [apply clearAllTimeouts_timers_empty, run_init_exact
                |apply clearAllTimeouts_empty|reflexivity|reflexivity].
Qed.

(** X3.  Calling a toast's [dismiss()] with a non-empty id, in any reachable state, leaves exactly one armed timer for that id: the registered one, with the default delay of 5000 ms. *)
Theorem dismiss_leaves_one_timer es i :
  i <> "" ->
  let w := (handle_dismiss i (run init es)).2 in
  exists h, toastTimeouts w !! i = Some h /\ timers w !! h = Some (i, TOAST_REMOVE_DELAY) /\
  forall h' d, timers w !! h' = Some (i, d) -> h' = h.
Proof.
  intros Hi. simpl.
  destruct (handle_dismiss_scheduled i (run init es) Hi) as (h&Hr&Ht).
  exists h. split_and!; [exact Hr|exact Ht|].
  intros h' d Hh'.
  assert (Hx : timers_exact (handle_dismiss i (run init es)).2)
    by (apply (step_exact (HandleDismiss i)), run_init_exact).
  destruct Hx as [_ Hx]. pose proof (Hx h' (i, d) Hh') as E. simpl in E. congruence.
Qed.

(** X4.  In any reachable state, [removeFromRemoveQueue(id)] deletes [id] from the registry and disarms every timer for it; timers for other ids stay armed and the store is unchanged. *)
Theorem removeFromRemoveQueue_spec es i :
  let w := run init es in
  let w' := (removeFromRemoveQueue i w).2 in
  toastTimeouts w' = delete i (toastTimeouts w) /\
  (forall h d, timers w' !! h <> Some (i, d)) /\
  (forall h j d, j <> i -> timers w' !! h = Some (j, d) <-> timers w !! h = Some (j, d)) /\
  memoryState w' = memoryState w.
Proof.
  simpl. pose proof (run_init_exact es) as Hx.
  set (w := run init es) in *.
  pose proof (removeFromRemoveQueue_exact i w Hx) as [_ Hx'].
  pose proof (removeFromRemoveQueue_io i w) as (_&Em&_).
  destruct Hx as [[Hh Hr] Hx0].
  unfold removeFromRemoveQueue, mbind, M_bind, gets in *. cbn [fst snd] in *.
  destruct (toastTimeouts w !! i) as [h0|] eqn:Ei.
  - cbn in Hx' |- *. split_and!; [reflexivity| | |reflexivity].
    + intros h d Hh'. pose proof (Hx' h (i, d) Hh') as E. simpl in E.
      rewrite lookup_delete_eq in E. discriminate.
    + intros h j d Hji. split.
      * intros H. apply lookup_delete_Some in H as [_ H]. exact H.
      * intros H. rewrite lookup_delete_ne; [exact H|]. intros E. subst h.
        pose proof (Hr i h0 Ei) as Hi. simpl in Hi. rewrite H in Hi. congruence.
  - cbn. split_and!; [|  |tauto|reflexivity].
    + symmetry. apply delete_id, Ei.
    + intros h d Hh'. pose proof (Hx0 h (i, d) Hh') as E. simpl in E. congruence.
Qed.

(** X5.  When an armed removal timer for [id] fires, the toasts with that id leave the list and the others stay in order; [id] leaves the registry with no timer armed for it, and the other registry entries are unchanged. *)
Theorem fire_removes es h i d :
  timers (run init es) !! h = Some (i, d) ->
  let w := run init es in
  let w' := (fire h w).2 in
  view w' (memoryState w') =
    List.filter (fun t => negb (String.eqb (id t) i)) (view w (memoryState w)) /\
  toastTimeouts w' !! i = None /\
  (forall h' d', timers w' !! h' <> Some (i, d')) /\
  (forall j, j <> i -> toastTimeouts w' !! j = toastTimeouts w !! j).
Proof.
  intros Hh. simpl. pose proof (run_init_exact es) as Hx.
  pose proof (fire_exact h _ Hx) as [_ Hx'].
  set (w := run init es) in *.
  revert Hx'. unfold fire, mbind, M_bind, gets. cbn [fst snd]. rewrite Hh.
  cbn [modify map_delete fst snd].
  set (w1 := set_toastTimeouts _ _). intros Hx'.
  assert (Er : toastTimeouts (dispatch (REMOVE_TOAST (Some i)) w1).2 =
               delete i (toastTimeouts w)) by (rewrite dispatch_snd_timeouts; reflexivity).
  split_and!.
  - rewrite dispatch_view, remove_some_eq. cbn [fst snd]. unfold view. cbn [toasts].
    rewrite filter_view. reflexivity.
  - rewrite Er. apply lookup_delete_eq.
  - intros h' d' Hh'. pose proof (Hx' h' (i, d') Hh') as E. cbn [fst] in E.
    rewrite Er, lookup_delete_eq in E. discriminate.
  - intros j Hj. rewrite Er. apply lookup_delete_ne. congruence.
Qed.

(** X6.  A toast's [dismiss()] sets [open] to false on exactly the toasts with its id; the hook's [dismiss()] does so on every toast when called without an id, and on the toasts with the given id otherwise. *)
Theorem dismiss_closes w i tid :
  wf_heap w -> allocated w (memoryState w) ->
  (let w' := (handle_dismiss i w).2 in
   view w' (memoryState w') =
   map (fun t => if String.eqb (id t) i then close t else t) (view w (memoryState w))) /\
  (let w' := (hook_dismiss tid w).2 in
   view w' (memoryState w') =
   match tid with
   | None => map close (view w (memoryState w))
   | Some i => map (fun t => if String.eqb (id t) i then close t else t)
                 (view w (memoryState w))
   end).
Proof.
  intros Hw Ha. split.
  - apply handle_dismiss_view; assumption.
  - unfold hook_dismiss. simpl. rewrite bind_snd.
    destruct (dispatch_dismiss_after
                (if truthy tid then
                   match tid with Some s => removeFromRemoveQueue s | None => mret tt end
                 else mret tt) tid w) as (E&_); [frame|frame|exact Hw|exact Ha|].
    rewrite E. destruct tid as [j|]; apply map_ext; intros t;
      [rewrite dismiss_sel_some|rewrite dismiss_sel_none]; reflexivity.
Qed.

(** X7.  A toast's [update(props)] spreads [{...props, id}] into exactly the toasts with that id and leaves the others; the ids of the list, in order, are unchanged. *)
Theorem handle_update_keeps_ids w i p :
  wf_heap w -> allocated w (memoryState w) ->
  let w' := (handle_update i p w).2 in
  view w' (memoryState w') =
  map (fun t => if String.eqb (id t) i
                then spread t (mkPartial i (p_title p) (p_description p) (p_action p)
                                 (p_duration p) (p_open p) (p_variant p)
                                 (p_onOpenChange p))
                else t) (view w (memoryState w)) /\
  map id (view w' (memoryState w')) = map id (view w (memoryState w)).
Proof.
  intros Hw Ha. unfold handle_update. simpl.
  rewrite dispatch_view.
  destruct (update_view (memoryState w) (mkPartial i (p_title p) (p_description p)
              (p_action p) (p_duration p) (p_open p) (p_variant p) (p_onOpenChange p))
              w Hw Ha) as (E&_).
  rewrite E. cbn [p_id]. split; [reflexivity|].
  rewrite map_map. apply map_ext. intros t. unfold str_eq.
  destruct (String.eqb_spec (id t) i) as [->|]; reflexivity.
Qed.

(** X8.  The cleanup function of [useToast]'s effect changes nothing when its listener is not subscribed; otherwise it removes the first occurrence of the listener only, and changes neither the state nor the record of listener calls. *)
Theorem unsubscribe_spec k w :
  let w' := (unsubscribe k w).2 in
  (k ∉ listeners w -> w' = w) /\
  (k ∈ listeners w ->
   exists l1 l2, listeners w = l1 ++ k :: l2 /\ (k ∉ l1) /\ listeners w' = l1 ++ l2 /\
   memoryState w' = memoryState w /\ rendered w' = rendered w).
Proof.
  simpl. unfold unsubscribe, indexOf. cbn [modify snd].
  destruct (indexOf_from_spec (listeners w) k 0) as [[Hn E]|(l1&l2&E1&Hn&E)];
    rewrite E.
  - split; [reflexivity|]. intros Hin. contradiction.
  - assert (Hgt : (0 + Z.of_nat (length l1) >? -1)%Z = true) by (apply Z.gtb_lt; lia).
    rewrite Hgt. split.
    + intros Hnot. exfalso. apply Hnot. rewrite E1.
      apply elem_of_app. right. apply elem_of_cons. left. reflexivity.
    + intros _. exists l1, l2. split_and!; [exact E1|exact Hn| |reflexivity|reflexivity].
      cbn [listeners set_store]. rewrite E1. unfold splice1.
      replace (Z.to_nat (0 + Z.of_nat (length l1))) with (length l1) by lia.
      rewrite take_app_length. replace (S (length l1)) with (length l1 + 1) by lia.
      rewrite drop_app_add. reflexivity.
Qed.

(** X9.  Subscribing a listener that is not yet subscribed and then running the effect's cleanup function restores the module exactly. *)
Theorem subscribe_unsubscribe k w :
  k ∉ listeners w -> (unsubscribe k (step (Subscribe k) w).2).2 = w.
Proof.
  intros Hk. cbn [step modify snd]. unfold unsubscribe, indexOf. cbn [modify snd].
  cbn [listeners set_store memoryState rendered].
  rewrite indexOf_from_last by exact Hk.
  assert (Hgt : (0 + Z.of_nat (length (listeners w)) >? -1)%Z = true)
    by (apply Z.gtb_lt; lia).
  rewrite Hgt. unfold splice1.
  replace (Z.to_nat (0 + Z.of_nat (length (listeners w)))) with (length (listeners w)) by lia.
  rewrite take_app_length. replace (S (length (listeners w))) with (length (listeners w) + 1) by lia.
  rewrite drop_app_add. cbn [drop]. rewrite app_nil_r.
  destruct w. reflexivity.
Qed.

(** X10.  After [cleanup], no listener is called until a component subscribes again: any sequence of operations without a subscription leaves the listeners empty and the record of listener calls as it was before [cleanup]. *)
Theorem cleanup_silences w es :
  Forall not_subscribe es ->
  let w0 := (cleanup w).2 in
  listeners (run w0 es) = [] /\ rendered (run w0 es) = rendered w.
Proof.
  intros Hes. simpl.
  assert (H0 : listeners (cleanup w).2 = [] /\ rendered (cleanup w).2 = rendered w).
  { unfold cleanup. rewrite bind_snd. cbn [modify snd set_store listeners rendered].
    split; [reflexivity|]. destruct (clearAllTimeouts_io w) as (_&_&_&E). exact E. }
  destruct H0 as [H0l H0r]. rewrite <- H0r.
  generalize (cleanup w).2 H0l. clear H0l H0r.
  induction Hes as [|e es He _ IH]; intros w0 Hl; [split; [exact Hl|reflexivity]|].
  cbn [run]. destruct (step_quiet e He w0 Hl) as [Hl1 Er1].
  destruct (IH _ Hl1) as [Hl2 Er2]. split; [exact Hl2|congruence].
Qed.

(** X11.  From any counter value in [0, MAX_SAFE_INTEGER), [MAX_SAFE_INTEGER] successive calls of [genId] return pairwise distinct ids, and the next call repeats the first id. *)
Theorem genId_period w :
  (0 <= count w < MAX_SAFE_INTEGER)%Z ->
  let ids := (genIds (Z.to_nat MAX_SAFE_INTEGER + 1) w).1 in
  ids !! 0 = ids !! Z.to_nat MAX_SAFE_INTEGER /\
  NoDup (take (Z.to_nat MAX_SAFE_INTEGER) ids).
Proof.
  intros Hc. cbv zeta.
  assert (HM : (0 < MAX_SAFE_INTEGER)%Z) by (unfold MAX_SAFE_INTEGER; lia).
  assert (EN : Z.of_nat (Z.to_nat MAX_SAFE_INTEGER) = MAX_SAFE_INTEGER)
    by (apply Z2Nat.id; lia).
  revert EN. generalize (Z.to_nat MAX_SAFE_INTEGER). intros N EN.
  rewrite (genIds_spec (N + 1) w Hc).
  set (f := fun k : nat => number_toString ((count w + Z.of_nat k) mod MAX_SAFE_INTEGER)).
  change (map f (seq 1 (N + 1))) with (f <$> seq 1 (N + 1)).
  split.
  - rewrite !list_lookup_fmap.
    rewrite (proj2 (lookup_seq 1 (N + 1) 0 1)) by lia.
    rewrite (proj2 (lookup_seq 1 (N + 1) N (1 + N))) by lia.
    cbn [fmap option_fmap option_map]. f_equal. unfold f. f_equal.
    rewrite Nat2Z.inj_add, EN.
    replace (count w + (Z.of_nat 1 + MAX_SAFE_INTEGER))%Z
      with (count w + 1 + 1 * MAX_SAFE_INTEGER)%Z by lia.
    rewrite Z_mod_plus_full. f_equal.
  - rewrite <- fmap_take, take_seq. replace (N `min` (N + 1)) with N by lia.
    apply (NoDup_fmap_2_strong f); [|apply NoDup_seq].
    intros a b Ha Hb E. apply elem_of_seq in Ha, Hb.
    unfold f in E. apply number_toString_inj in E;
      [|apply Z.mod_pos_bound; exact HM|apply Z.mod_pos_bound; exact HM].
    apply mod_window_inj in E; lia.
Qed.

(** X12.  [toastError] puts at the head of the list an open toast with the caller's title, description and action, variant destructive, duration 0 and a dismissing [onOpenChange]; it arms no timer and leaves the registry unchanged. *)
Theorem toastError_persistent props w :
  wf_heap w -> allocated w (memoryState w) ->
  let r := toastError props w in
  head (view r.2 (memoryState r.2)) =
    Some (mkToast r.1 (in_title props) (in_description props) (in_action props)
            (Some 0%Z) (Some true) (Some "destructive") (Some (DismissWhenClosed r.1))) /\
  timer_same w r.2.
Proof.
  intros Hw Ha. unfold toastError.
  destruct (toast_spec (with_variant_duration "destructive" 0 props) w Hw Ha)
    as (Ei&_&Hv&_&_&Ht).
  cbv zeta. rewrite Hv, Ei. split; [apply take_limit_head|].
  revert Ht. cbn [in_duration with_variant_duration].
  rewrite bool_decide_eq_true_2 by reflexivity. tauto.
Qed.

(** X13.  [toastWarning] ignores the caller's duration: the new toast at the head of the list has duration 7000 and variant default, and a 7000 ms removal timer is armed and registered for its id. *)
Theorem toastWarning_spec props w :
  wf_heap w -> allocated w (memoryState w) ->
  let r := toastWarning props w in
  head (view r.2 (memoryState r.2)) =
    Some (mkToast r.1 (in_title props) (in_description props) (in_action props)
            (Some 7000%Z) (Some true) (Some "default") (Some (DismissWhenClosed r.1))) /\
  scheduled r.2 r.1 7000.
Proof.
  intros Hw Ha. unfold toastWarning.
  destruct (toast_spec (with_variant_duration "default" 7000 props) w Hw Ha)
    as (Ei&_&Hv&_&_&Ht).
  cbv zeta. rewrite Hv, Ei. split; [apply take_limit_head|].
  revert Ht. cbn [in_duration with_variant_duration].
  rewrite bool_decide_eq_false_2 by discriminate. tauto.
Qed.

(** X14.  [toastSuccess] and [toastInfo] put at the head of the list a toast with variant default and the caller's duration; with duration 0 they arm no timer, otherwise they register a removal timer with that duration, 5000 ms when none is given. *)
Theorem toastSuccess_info_spec props w :
  wf_heap w -> allocated w (memoryState w) ->
  forall f, f = toastSuccess \/ f = toastInfo ->
  let r := f props w in
  head (view r.2 (memoryState r.2)) =
    Some (mkToast r.1 (in_title props) (in_description props) (in_action props)
            (in_duration props) (Some true) (Some "default")
            (Some (DismissWhenClosed r.1))) /\
  (if bool_decide (in_duration props = Some 0%Z) then timer_same w r.2
   else scheduled r.2 r.1 (default TOAST_REMOVE_DELAY (in_duration props))).
Proof.
  intros Hw Ha f Hf.
  assert (Ef : f props = toast (with_variant "default" props))
    by (destruct Hf as [->| ->]; reflexivity).
  destruct (toast_spec (with_variant "default" props) w Hw Ha) as (Ei&_&Hv&_&_&Ht).
  cbv zeta. rewrite Ef, Hv, Ei. split; [apply take_limit_head|].
  exact Ht.
Qed.

(** X15.  The [onOpenChange] stored on a new toast does nothing when called with true; called with false it closes exactly the toasts with the new id and arms a 5000 ms removal timer for it. *)
Theorem onOpenChange_dismisses props w :
  wf_heap w -> allocated w (memoryState w) ->
  let r := toast props w in
  exists t, head (view r.2 (memoryState r.2)) = Some t /\
  onOpenChange t = Some (DismissWhenClosed r.1) /\
  (call_onOpenChange (DismissWhenClosed r.1) true r.2).2 = r.2 /\
  (let w' := (call_onOpenChange (DismissWhenClosed r.1) false r.2).2 in
   view w' (memoryState w') =
     map (fun t => if String.eqb (id t) r.1 then close t else t)
       (view r.2 (memoryState r.2)) /\
   scheduled w' r.1 TOAST_REMOVE_DELAY).
Proof.
  intros Hw Ha. cbv zeta.
  pose proof (toast_id_nonempty props w) as Hne.
  destruct (toast_spec props w Hw Ha) as (Ei&_&Hv&Hw'&Ha'&_).
  cbv zeta in Ei, Hv.
  destruct (toast props w) as [i w1]. cbn [fst snd] in *.
  eexists. split; [rewrite Hv; apply take_limit_head|].
  split; [cbn [onOpenChange]; rewrite Ei; reflexivity|].
  split; [reflexivity|]. cbn [call_onOpenChange].
  split; [apply (handle_dismiss_view w1 i Hw' Ha')|].
  apply handle_dismiss_scheduled, Hne.
Qed.

(** X16.  As long as fewer than [MAX_SAFE_INTEGER] toasts have been created and only the exported functions are used (no raw ADD), the toasts in the list have pairwise distinct ids, each the decimal string of a number between 1 and the number of toasts created. *)
Theorem toast_ids_unique es :
  Forall no_raw_add es -> (Z.of_nat (creations es) < MAX_SAFE_INTEGER)%Z ->
  let w := run init es in
  NoDup (ids w) /\
  Forall (fun s => exists k, (1 <= k <= Z.of_nat (creations es))%Z /\
                             s = number_toString k) (ids w).
Proof.
  intros Hes Hc. destruct (run_inv init es Hes init_store_inv) as [(_&_&Hnd&Hb&_) Ec];
    [simpl; lia|].
  cbv zeta. split; [exact Hnd|]. rewrite Ec in Hb. exact Hb.
Qed.

(** ** Witnesses of the further properties *)

Lemma dismiss_leaves_one_timer_witness :
  "1" <> "" /\
  let w := (handle_dismiss "1" (run init [CreateToast (input (Some "A") None)])).2 in
  exists h, toastTimeouts w !! "1" = Some h /\ timers w !! h = Some ("1", TOAST_REMOVE_DELAY) /\
  forall h' d, timers w !! h' = Some ("1", d) -> h' = h.
Proof.
  assert (Hi : "1" <> "") by discriminate.
  split; [exact Hi|].
  exact (dismiss_leaves_one_timer [CreateToast (input (Some "A") None)] "1" Hi).
Defined.

Lemma fire_removes_witness :
  timers (run init [CreateToast (input (Some "A") None)]) !! 1%positive =
    Some ("1", 5000%Z) /\
  let w := run init [CreateToast (input (Some "A") None)] in
  let w' := (fire 1%positive w).2 in
  view w' (memoryState w') =
    List.filter (fun t => negb (String.eqb (id t) "1")) (view w (memoryState w)) /\
  toastTimeouts w' !! "1" = None /\
  (forall h' d', timers w' !! h' <> Some ("1", d')) /\
  (forall j, j <> "1" -> toastTimeouts w' !! j = toastTimeouts w !! j).
Proof.
  assert (Hh : timers (run init [CreateToast (input (Some "A") None)]) !! 1%positive =
               Some ("1", 5000%Z)) by (vm_compute; reflexivity).
  split; [exact Hh|].
  exact (fire_removes [CreateToast (input (Some "A") None)] 1%positive "1" 5000%Z Hh).
Defined.

Lemma dismiss_closes_witness :
  wf_heap demo_world /\ allocated demo_world (memoryState demo_world) /\
  (let w' := (handle_dismiss "1" demo_world).2 in
   view w' (memoryState w') =
   map (fun t => if String.eqb (id t) "1" then close t else t)
     (view demo_world (memoryState demo_world))) /\
  (let w' := (hook_dismiss None demo_world).2 in
   view w' (memoryState w') = map close (view demo_world (memoryState demo_world))).
Proof.
  assert (Hw : wf_heap demo_world) by (apply wf_heap_b_sound; vm_compute; reflexivity).
  assert (Ha : allocated demo_world (memoryState demo_world))
    by (apply allocated_b_sound; vm_compute; reflexivity).
  split_and!; [exact Hw|exact Ha|..];
    [exact (proj1 (dismiss_closes demo_world "1" None Hw Ha))
    |exact (proj2 (dismiss_closes demo_world "1" None Hw Ha))].
Defined.

Lemma handle_update_keeps_ids_witness :
  wf_heap demo_world /\ allocated demo_world (memoryState demo_world) /\
  let p := mkPartial "9" None (Some (Some "D")) None None None None None in
  let w' := (handle_update "2" p demo_world).2 in
  view w' (memoryState w') =
  map (fun t => if String.eqb (id t) "2"
                then spread t (mkPartial "2" (p_title p) (p_description p) (p_action p)
                                 (p_duration p) (p_open p) (p_variant p)
                                 (p_onOpenChange p))
                else t) (view demo_world (memoryState demo_world)) /\
  map id (view w' (memoryState w')) = map id (view demo_world (memoryState demo_world)).
Proof.
  assert (Hw : wf_heap demo_world) by (apply wf_heap_b_sound; vm_compute; reflexivity).
  assert (Ha : allocated demo_world (memoryState demo_world))
    by (apply allocated_b_sound; vm_compute; reflexivity).
  split_and!; [exact Hw|exact Ha|].
  exact (handle_update_keeps_ids demo_world "2"
           (mkPartial "9" None (Some (Some "D")) None None None None None) Hw Ha).
Defined.

Lemma subscribe_unsubscribe_witness :
  (0 ∉ listeners init) /\ (unsubscribe 0 (step (Subscribe 0) init).2).2 = init.
Proof.
  assert (Hk : 0 ∉ listeners init) by (simpl; apply not_elem_of_nil).
  split; [exact Hk|]. exact (subscribe_unsubscribe 0 init Hk).
Defined.

Lemma cleanup_silences_witness :
  Forall not_subscribe [CreateToast (input (Some "A") None); HookClearAll] /\
  let w0 := (cleanup demo_world).2 in
  listeners (run w0 [CreateToast (input (Some "A") None); HookClearAll]) = [] /\
  rendered (run w0 [CreateToast (input (Some "A") None); HookClearAll]) =
  rendered demo_world.
Proof.
  assert (H : Forall not_subscribe [CreateToast (input (Some "A") None); HookClearAll])
    by (repeat constructor).
  split; [exact H|]. exact (cleanup_silences demo_world _ H).
Defined.

Lemma genId_period_witness :
  (0 <= count init < MAX_SAFE_INTEGER)%Z /\
  let ids := (genIds (Z.to_nat MAX_SAFE_INTEGER + 1) init).1 in
  ids !! 0 = ids !! Z.to_nat MAX_SAFE_INTEGER /\
  NoDup (take (Z.to_nat MAX_SAFE_INTEGER) ids).
Proof.
  assert (Hc : (0 <= count init < MAX_SAFE_INTEGER)%Z)
    by (simpl; unfold MAX_SAFE_INTEGER; lia).
  split; [exact Hc|]. exact (genId_period init Hc).
Defined.

Lemma toastError_persistent_witness :
  wf_heap demo_world /\ allocated demo_world (memoryState demo_world) /\
  let r := toastError (input (Some "E") None) demo_world in
  head (view r.2 (memoryState r.2)) =
    Some (mkToast r.1 (Some "E") None None
            (Some 0%Z) (Some true) (Some "destructive") (Some (DismissWhenClosed r.1))) /\
  timer_same demo_world r.2.
Proof.
  assert (Hw : wf_heap demo_world) by (apply wf_heap_b_sound; vm_compute; reflexivity).
  assert (Ha : allocated demo_world (memoryState demo_world))
    by (apply allocated_b_sound; vm_compute; reflexivity).
  split_and!; [exact Hw|exact Ha|].
  exact (toastError_persistent (input (Some "E") None) demo_world Hw Ha).
Defined.

Lemma toastWarning_spec_witness :
  wf_heap demo_world /\ allocated demo_world (memoryState demo_world) /\
  let r := toastWarning (input (Some "W") (Some 100%Z)) demo_world in
  head (view r.2 (memoryState r.2)) =
    Some (mkToast r.1 (Some "W") None None
            (Some 7000%Z) (Some true) (Some "default") (Some (DismissWhenClosed r.1))) /\
  scheduled r.2 r.1 7000.
Proof.
  assert (Hw : wf_heap demo_world) by (apply wf_heap_b_sound; vm_compute; reflexivity).
  assert (Ha : allocated demo_world (memoryState demo_world))
    by (apply allocated_b_sound; vm_compute; reflexivity).
  split_and!; [exact Hw|exact Ha|].
  exact (toastWarning_spec (input (Some "W") (Some 100%Z)) demo_world Hw Ha).
Defined.

Lemma toastSuccess_info_spec_witness :
  wf_heap demo_world /\ allocated demo_world (memoryState demo_world) /\
  (toastInfo = toastSuccess \/ toastInfo = toastInfo) /\
  let r := toastInfo (input (Some "I") (Some 0%Z)) demo_world in
  head (view r.2 (memoryState r.2)) =
    Some (mkToast r.1 (Some "I") None None
            (Some 0%Z) (Some true) (Some "default")
            (Some (DismissWhenClosed r.1))) /\
  (if bool_decide (Some 0%Z = Some 0%Z) then timer_same demo_world r.2
   else scheduled r.2 r.1 (default TOAST_REMOVE_DELAY (Some 0%Z))).
Proof.
  assert (Hw : wf_heap demo_world) by (apply wf_heap_b_sound; vm_compute; reflexivity).
  assert (Ha : allocated demo_world (memoryState demo_world))
    by (apply allocated_b_sound; vm_compute; reflexivity).
  assert (Hf : toastInfo = toastSuccess \/ toastInfo = toastInfo) by (right; reflexivity).
  split_and!; [exact Hw|exact Ha|exact Hf|].
  exact (toastSuccess_info_spec (input (Some "I") (Some 0%Z)) demo_world Hw Ha toastInfo Hf).
Defined.

Lemma onOpenChange_dismisses_witness :
  wf_heap demo_world /\ allocated demo_world (memoryState demo_world) /\
  let r := toast (input (Some "O") None) demo_world in
  exists t, head (view r.2 (memoryState r.2)) = Some t /\
  onOpenChange t = Some (DismissWhenClosed r.1) /\
  (call_onOpenChange (DismissWhenClosed r.1) true r.2).2 = r.2 /\
  (let w' := (call_onOpenChange (DismissWhenClosed r.1) false r.2).2 in
   view w' (memoryState w') =
     map (fun t => if String.eqb (id t) r.1 then close t else t)
       (view r.2 (memoryState r.2)) /\
   scheduled w' r.1 TOAST_REMOVE_DELAY).
Proof.
  assert (Hw : wf_heap demo_world) by (apply wf_heap_b_sound; vm_compute; reflexivity).
  assert (Ha : allocated demo_world (memoryState demo_world))
    by (apply allocated_b_sound; vm_compute; reflexivity).
  split_and!; [exact Hw|exact Ha|].
  exact (onOpenChange_dismisses (input (Some "O") None) demo_world Hw Ha).
Defined.

Lemma toast_ids_unique_witness :
  Forall no_raw_add [CreateToast (input (Some "A") None); HandleDismiss "1";
                     CreateToast (input (Some "B") None)] /\
  (Z.of_nat (creations [CreateToast (input (Some "A") None); HandleDismiss "1";
                        CreateToast (input (Some "B") None)]) < MAX_SAFE_INTEGER)%Z /\
  let w := run init [CreateToast (input (Some "A") None); HandleDismiss "1";
                     CreateToast (input (Some "B") None)] in
  NoDup (ids w) /\
  Forall (fun s => exists k, (1 <= k <= Z.of_nat (creations
             [CreateToast (input (Some "A") None); HandleDismiss "1";
              CreateToast (input (Some "B") None)]))%Z /\
                             s = number_toString k) (ids w).
Proof.
  assert (H1 : Forall no_raw_add [CreateToast (input (Some "A") None); HandleDismiss "1";
                                  CreateToast (input (Some "B") None)])
    by (repeat constructor).
  assert (H2 : (Z.of_nat (creations [CreateToast (input (Some "A") None); HandleDismiss "1";
                        CreateToast (input (Some "B") None)]) < MAX_SAFE_INTEGER)%Z)
    by (vm_compute; reflexivity).
  split_and!; [exact H1|exact H2|].
  exact (toast_ids_unique _ H1 H2).
Defined.
